(** * web-timing-safe-equal: a shallow embedding of the comparison engine

    The development follows the single source module of the library
    (functions [webTimingSafeEqual], [hmac], [generateSecretKey],
    [validateAlgorithm] and [validateValueOrConvertToUint8Array]).

    - JavaScript values are a small inductive universe [JsValue].
    - The injected [subtleCrypto] object is a record of state-passing
      functions; every call on it is an [Await] node of a free monad
      [Async], so that the order of the calls the code makes is explicit.
    - [Promise.all] of two asynchronous computations is the interleaving
      [all2] of two such trees; which of two pending calls settles first
      is the host's choice, a [Settle] node.
    - [run] interprets a tree against a provider, which answers the calls
      and makes the host's choices, and logs every call. *)

From Stdlib Require Import String Ascii NArith ZArith Bool Lia List.
From Stdlib.Strings Require Import Byte.
From Stdlib Require Import DecimalString.
Import ListNotations.

Set Implicit Arguments.
Local Open Scope N_scope.

(* ------------------------------------------------------------------ *)
(** ** Strings and bytes *)

(** A JavaScript string is a sequence of UTF-16 code units. *)
Definition JsString := list N.

(** A string literal of the source, as code units. *)
Definition str (s : string) : JsString :=
  map N_of_ascii (list_ascii_of_string s).

Fixpoint jsstring_eqb (a b : JsString) : bool :=
  match a, b with
  | [], [] => true
  | x :: a', y :: b' => (x =? y) && jsstring_eqb a' b'
  | _, _ => false
  end.

(** Storing a number into a [Uint8Array] keeps its low eight bits. *)
Definition u8 (n : N) : byte :=
  match Byte.of_N (n mod 256) with
  | Some b => b
  | None => x00
  end.

Definition is_high_surrogate (c : N) : bool := (0xD800 <=? c) && (c <=? 0xDBFF).
Definition is_low_surrogate (c : N) : bool := (0xDC00 <=? c) && (c <=? 0xDFFF).

(** The three bytes of U+FFFD, which [TextEncoder] emits for a lone
    surrogate. *)
Definition replacement_bytes : list byte := [xef; xbf; xbd].

Definition utf8_1 (c : N) : list byte := [u8 c].
Definition utf8_2 (c : N) : list byte :=
  [u8 (N.lor 0xC0 (N.shiftr c 6)); u8 (N.lor 0x80 (N.land c 0x3F))].
Definition utf8_3 (c : N) : list byte :=
  [u8 (N.lor 0xE0 (N.shiftr c 12));
   u8 (N.lor 0x80 (N.land (N.shiftr c 6) 0x3F));
   u8 (N.lor 0x80 (N.land c 0x3F))].
Definition utf8_4 (c : N) : list byte :=
  [u8 (N.lor 0xF0 (N.shiftr c 18));
   u8 (N.lor 0x80 (N.land (N.shiftr c 12) 0x3F));
   u8 (N.lor 0x80 (N.land (N.shiftr c 6) 0x3F));
   u8 (N.lor 0x80 (N.land c 0x3F))].

(** [new TextEncoder().encode(s)]: UTF-8 of a UTF-16 string. *)
Fixpoint TextEncoder_encode (s : JsString) : list byte :=
  match s with
  | [] => []
  | c :: rest =>
      if c <? 0x80 then utf8_1 c ++ TextEncoder_encode rest
      else if c <? 0x800 then utf8_2 c ++ TextEncoder_encode rest
      else if is_high_surrogate c then
        match rest with
        | lo :: rest' =>
            if is_low_surrogate lo
            then utf8_4 (0x10000 + N.shiftl (c - 0xD800) 10 + (lo - 0xDC00))
                   ++ TextEncoder_encode rest'
            else replacement_bytes ++ TextEncoder_encode rest
        | [] => replacement_bytes
        end
      else if is_low_surrogate c then replacement_bytes ++ TextEncoder_encode rest
      else utf8_3 c ++ TextEncoder_encode rest
  end.

(** One digit of [Number.prototype.toString(16)]: [0-9] then [a-f]. *)
Definition hex_digit (d : N) : N := if d <? 10 then 48 + d else 87 + d.

Fixpoint to_radix16 (fuel : nat) (n : N) : JsString :=
  match fuel with
  | O => []
  | S f =>
      if n <? 16 then [hex_digit n]
      else to_radix16 f (n / 16) ++ [hex_digit (n mod 16)]
  end.

(** [b.toString(16)] for an element [b] of a [Uint8Array]: two rounds are
    enough below 256. *)
Definition toString16 (b : byte) : JsString := to_radix16 2 (Byte.to_N b).

(** [s.padStart(len, pad)] with a one-character [pad]. *)
Definition padStart (len : nat) (pad : N) (s : JsString) : JsString :=
  repeat pad (len - length s) ++ s.

(** [hashArray.map((b) => b.toString(16).padStart(2, "0")).join("")] *)
Definition hex_of_bytes (hashArray : list byte) : JsString :=
  concat (map (fun b => padStart 2 48 (toString16 b)) hashArray).

(* ------------------------------------------------------------------ *)
(** ** Values *)

(** The hash functions a WebCrypto HMAC key can be bound to. *)
Inductive HashAlg := SHA1 | SHA256 | SHA384 | SHA512.

(** Output size of the hash in bytes. *)
Definition digest_bytes (h : HashAlg) : nat :=
  match h with
  | SHA1 => 20
  | SHA256 => 32
  | SHA384 => 48
  | SHA512 => 64
  end%nat.

(** A [CryptoKey] as the program can observe it: its bound hash, its length
    in bits, the two flags, and the key material behind the handle. *)
Record CryptoKey := {
  ck_hash : HashAlg;
  ck_length : Z;
  ck_extractable : bool;
  ck_usages : list string;
  ck_material : list byte
}.

(** Numbers: the integer-valued doubles ([Int z], for [z] a double),
    NaN and the two infinities.  Fractions and the negative zero are left
    out: lengths are documented as integers. *)
Inductive JsNumber := Int (z : Z) | NaN | Infinity (negative : bool).

#[warnings="-register-all"]
Inductive JsValue :=
| JUndefined
| JNull
| JBool (b : bool)
| JNumber (n : JsNumber)
| JString (s : JsString)
| JStringObject (s : JsString)      (* new String(s) *)
| JUint8Array (bytes : list byte)
| JCryptoKey (k : CryptoKey)
| JObject (ctor : option string) (props : list (string * JsValue))
    (* an ordinary object that is none of the above and not an array: its
       own enumerable data properties, the newest binding first, and the
       name of the constructor it inherits -- [Some "Object"] for an object
       literal, [Some n] for an instance of a class [n] without methods of
       its own, [None] for an object without prototype
       ([Object.create(null)]) *)
| JSymbol
| JBigInt (z : Z)
| JArray (elems : list JsValue).

(** Functions, dates, boxed numbers and booleans, proxies and objects with
    accessors or methods of their own are outside this universe. *)

Definition Props := list (string * JsValue).

(** The empty object literal. *)
Definition empty_object : JsValue := JObject (Some "Object"%string) [].

Definition hash_name (h : HashAlg) : JsString :=
  match h with
  | SHA1 => str "SHA-1"
  | SHA256 => str "SHA-256"
  | SHA384 => str "SHA-384"
  | SHA512 => str "SHA-512"
  end.

Fixpoint lookup (name : string) (ps : Props) : JsValue :=
  match ps with
  | [] => JUndefined
  | (n, v) :: ps' => if String.eqb n name then v else lookup name ps'
  end.

(** [v.name] for a value that is neither [undefined] nor [null].  The
    program only reads [keyAlgorithm], [hmacAlgorithm], [secretKey],
    [keyLength] and [algorithm]; of the built-in values only a [CryptoKey]
    has one of them. *)
Definition js_get (v : JsValue) (name : string) : JsValue :=
  match v with
  | JObject _ ps => lookup name ps
  | JCryptoKey k =>
      if String.eqb name "algorithm" then
        JObject (Some "Object"%string)
          [("name"%string, JString (str "HMAC"));
           ("hash"%string,
             JObject (Some "Object"%string)
               [("name"%string, JString (hash_name (ck_hash k)))]);
           ("length"%string, JNumber (Int (ck_length k)))]
      else JUndefined
  | _ => JUndefined
  end.

(** ToBoolean *)
Definition truthy (v : JsValue) : bool :=
  match v with
  | JUndefined | JNull => false
  | JBool b => b
  | JNumber (Int z) => negb (Z.eqb z 0)
  | JNumber NaN => false
  | JNumber (Infinity _) => true
  | JString s => match s with [] => false | _ => true end
  | JBigInt z => negb (Z.eqb z 0)
  | _ => true
  end.

(** Whether the object has an own property [name]. *)
Definition has_own (name : string) (ps : Props) : bool :=
  existsb (fun p => String.eqb (fst p) name) ps.

(** A string of the program text from code units, when they all are below
    256. *)
Fixpoint string_of_units (s : JsString) : option string :=
  match s with
  | [] => Some EmptyString
  | c :: s' =>
      if c <? 256 then
        match string_of_units s' with
        | Some t => Some (String (ascii_of_N c) t)
        | None => None
        end
      else None
  end.

(** [v?.name] when it is a primitive string: of the values here only an
    ordinary object can have a [name]. *)
Definition name_of (v : JsValue) : option string :=
  match v with
  | JObject _ ps =>
      match lookup "name" ps with
      | JString s => string_of_units s
      | _ => None
      end
  | _ => None
  end.

(** [v?.constructor?.name] when it is a primitive string.  An own
    [constructor] property of an object hides the inherited one. *)
Definition constructor_name (v : JsValue) : option string :=
  match v with
  | JUndefined | JNull => None
  | JBool _ => Some "Boolean"
  | JNumber _ => Some "Number"
  | JString _ | JStringObject _ => Some "String"
  | JUint8Array _ => Some "Uint8Array"
  | JCryptoKey _ => Some "CryptoKey"
  | JObject c ps =>
      if has_own "constructor" ps then name_of (lookup "constructor" ps)
      else c
  | JSymbol => Some "Symbol"
  | JBigInt _ => Some "BigInt"
  | JArray _ => Some "Array"
  end%string.

(** Whether ToString(v), as a template literal [`${v}`] applies it,
    completes; it throws a [TypeError] otherwise.  A symbol has no string.
    An ordinary object is converted by the [toString] it inherits from
    [Object.prototype]: there is none without a prototype, and an own
    [toString] property, which is no function here, hides it.  An array
    joins the strings of its elements, the empty string for [undefined]
    and [null]. *)
Fixpoint stringifies (v : JsValue) : bool :=
  match v with
  | JSymbol => false
  | JObject c ps =>
      match c with
      | None => false
      | Some _ => negb (has_own "toString" ps)
      end
  | JArray es =>
      (fix all (es : list JsValue) : bool :=
         match es with
         | [] => true
         | e :: es' =>
             match e with
             | JUndefined | JNull => true
             | _ => stringifies e
             end && all es'
         end) es
  | _ => true
  end.

Definition index_name (i : nat) : string :=
  NilEmpty.string_of_uint (Nat.to_uint i).

Fixpoint indexed {A} (f : A -> JsValue) (i : nat) (xs : list A) : Props :=
  match xs with
  | [] => []
  | x :: xs' => indexed f (S i) xs' ++ [(index_name i, f x)]
  end.

(** The own enumerable properties an object spread [...v] copies. *)
Definition spread (v : JsValue) : Props :=
  match v with
  | JString s | JStringObject s => indexed (fun c => JString [c]) 0 s
  | JUint8Array bs => indexed (fun b => JNumber (Int (Z.of_N (Byte.to_N b)))) 0 bs
  | JObject _ ps => ps
  | JArray es => indexed (fun e => e) 0 es
  | _ => []
  end.

(** [{ ...a, ...b }]: the later spread wins. *)
Definition object_of_spreads (a b : JsValue) : JsValue :=
  JObject (Some "Object"%string) (spread b ++ spread a).

(** The doubles end below [2 ^ 1024]: a product of that size or beyond is
    an infinity. *)
Definition double_limit : Z := 2 ^ 1024.

(** [x * 8] on numbers.  A multiplication by a power of two is exact in a
    double unless it overflows. *)
Definition times8 (n : JsNumber) : JsNumber :=
  match n with
  | Int z =>
      if (double_limit <=? Z.abs (z * 8))%Z then Infinity (z <? 0)%Z
      else Int (z * 8)
  | NaN => NaN
  | Infinity negative => Infinity negative
  end.

(* ------------------------------------------------------------------ *)
(** ** Failures *)

(** What a call can fail with.  The two [new Error(...)] sites of the
    source are told apart by constructor and carry the offending value in
    place of the message text; [TypeError] is the host's own failure: on
    reading a property of [null], on a value that has no string or no
    number where one is needed; a rejection of the provider is carried
    through unchanged. *)
Inductive Error :=
| InvalidAlgorithm (algorithm : JsValue)
| InvalidInputType (value : JsValue)
| TypeError
| ProviderFailure (name : string).

Definition Result (A : Type) : Type := Error + A.
Definition Ok {A} (a : A) : Result A := inr a.
Definition Err {A} (e : Error) : Result A := inl e.

(* ------------------------------------------------------------------ *)
(** ** The two synchronous helpers *)

Definition allowedAlgorithms : list JsString :=
  [str "SHA-1"; str "SHA-256"; str "SHA-384"; str "SHA-512"].

(** [Array.prototype.includes] on an array of primitive strings: only a
    primitive string with the same code units is found. *)
Definition includes (xs : list JsString) (v : JsValue) : bool :=
  match v with
  | JString s => existsb (jsstring_eqb s) xs
  | _ => false
  end.

(** The evaluation of a message [`... ${v} ...`]: only its completion
    matters, the text is not kept. *)
Definition template (v : JsValue) : Result unit :=
  if stringifies v then Ok tt else Err TypeError.

(** [throw new Error(message)], the message being built first. *)
Definition throw_with_message {A} (message : Result unit) (e : Error)
  : Result A :=
  match message with
  | inl type_error => Err type_error
  | inr _ => Err e
  end.

Definition validateAlgorithm (algorithm : JsValue) : Result unit :=
  if negb (includes allowedAlgorithms algorithm)
  then throw_with_message (template algorithm) (InvalidAlgorithm algorithm)
  else Ok tt.

Definition validateValueOrConvertToUint8Array (value : JsValue)
  : Result (list byte) :=
  match value with
  | JString s => Ok (TextEncoder_encode s)        (* typeof value === "string" *)
  | JStringObject s => Ok (TextEncoder_encode s)  (* value instanceof String *)
  | JUint8Array bytes => Ok bytes                 (* value instanceof Uint8Array *)
  | _ => throw_with_message (template value) (InvalidInputType value)
  end.

(* ------------------------------------------------------------------ *)
(** ** Calls on [subtleCrypto] and asynchronous computations *)

(** [{ name: "HMAC", hash: { name: algorithm }, length }] *)
Record HmacKeyGenParams := {
  kg_name : string;
  kg_hash : JsValue;
  kg_length : option JsNumber
}.

(** [{ name: "HMAC", hash: algorithm }] *)
Record HmacImportParams := {
  ki_name : string;
  ki_hash : JsValue
}.

Inductive Call :=
| GenerateKey (algorithm : HmacKeyGenParams) (extractable : bool)
    (keyUsages : list string)
| ImportKey (format : string) (keyData : JsValue)
    (algorithm : HmacImportParams) (extractable : bool)
    (keyUsages : list string)
| Sign (algorithm : string) (key : JsValue) (data : list byte).

(** What the promise of a call resolves to. *)
Definition Reply (c : Call) : Type :=
  match c with
  | GenerateKey _ _ _ => CryptoKey
  | ImportKey _ _ _ _ _ => CryptoKey
  | Sign _ _ _ => list byte
  end.

(** The outcome of a call: the name of the provider's rejection, or the
    reply. *)
Definition Outcome (c : Call) : Type := string + Reply c.

(** An asynchronous computation: it returns, throws, issues a call on the
    provider and goes on with the outcome, or -- with two of its calls
    pending -- goes on according to which of the two the host settles
    first ([true]: the one of the first computation). *)
Inductive Async (A : Type) : Type :=
| Ret (a : A)
| Throw (e : Error)
| Await (c : Call) (k : Outcome c -> Async A)
| Settle (k : bool -> Async A).

Arguments Ret {A} a.
Arguments Throw {A} e.
Arguments Await {A} c k.
Arguments Settle {A} k.

Fixpoint bind {A B} (m : Async A) (f : A -> Async B) : Async B :=
  match m with
  | Ret a => f a
  | Throw e => Throw e
  | Await c k => Await c (fun o => bind (k o) f)
  | Settle k => Settle (fun first => bind (k first) f)
  end.

Notation "x <- m ;; f" := (bind m (fun x => f))
  (at level 61, m at next level, right associativity).
Notation "m ;;; f" := (bind m (fun _ => f))
  (at level 61, right associativity).

(** A synchronous step inside an [async] function. *)
Definition lift {A} (r : Result A) : Async A :=
  match r with
  | inl e => Throw e
  | inr a => Ret a
  end.

(** [await subtleCrypto.op(...)] with no handler around it: a rejection is
    rethrown as it is. *)
Definition await (c : Call) : Async (Reply c) :=
  Await c (fun o =>
    match o with
    | inl name => Throw (ProviderFailure name)
    | inr r => Ret r
    end).

(** Runs [m] for its calls only, then goes on as [t]: a promise nobody is
    waiting for any more. *)
Fixpoint background {A B} (m : Async A) (t : Async B) : Async B :=
  match m with
  | Ret _ => t
  | Throw _ => t
  | Await c k => Await c (fun o => background (k o) t)
  | Settle k => Settle (fun first => background (k first) t)
  end.

(** Two computations that each wait for a call of theirs to settle.  The
    host settles one of them first; that computation resumes and runs up
    to its next call, its end or its failure.  The first rejection is the
    rejection of the whole, and the other computation still runs to its
    end; when one has returned, the whole waits for the other. *)
Fixpoint race {A B} (t1 : Async A) : Async B -> Async (A * B) :=
  fix race_second (t2 : Async B) : Async (A * B) :=
    Settle (fun first : bool =>
      if first then
        match t1 with
        | Ret a => b <- t2 ;; Ret (a, b)
        | Throw e => background t2 (Throw e)
        | Await c k => Await c (fun o => race (k o) t2)
        | Settle k => Settle (fun x => race (k x) t2)
        end
      else
        match t2 with
        | Ret b => a <- t1 ;; Ret (a, b)
        | Throw e => background t1 (Throw e)
        | Await c k => Await c (fun o => race_second (k o))
        | Settle k => Settle (fun x => race_second (k x))
        end).

(** [await Promise.all([m1, m2])] on the promises of two [async]
    functions that were just called.  Each function has run, the first one
    first, up to its first call; a function that ended before any call
    has settled its promise already.  From two pending calls on, the
    order in which the host settles them decides who resumes ([race]). *)
Definition all2 {A B} (m1 : Async A) (m2 : Async B) : Async (A * B) :=
  match m1 with
  | Ret a => b <- m2 ;; Ret (a, b)
  | Throw e => background m2 (Throw e)
  | Await c1 k1 =>
      match m2 with
      | Ret b => Await c1 (fun o1 => a <- k1 o1 ;; Ret (a, b))
      | Throw e => Await c1 (fun o1 => background (k1 o1) (Throw e))
      | Await c2 k2 =>
          Await c1 (fun o1 => Await c2 (fun o2 => race (k1 o1) (k2 o2)))
      | Settle k2 =>
          Await c1 (fun o1 => Settle (fun x => race (k1 o1) (k2 x)))
      end
  | Settle k1 => Settle (fun x => race (k1 x) m2)
  end.

(* ------------------------------------------------------------------ *)
(** ** The three asynchronous functions *)

(** A default parameter or default destructured property applies to
    [undefined] only. *)
Definition or_default (v d : JsValue) : JsValue :=
  match v with
  | JUndefined => d
  | _ => v
  end.

(** [v?.name] *)
Definition opt_get (v : JsValue) (name : string) : JsValue :=
  match v with
  | JUndefined | JNull => JUndefined
  | _ => js_get v name
  end.

(** [v.name], a [TypeError] on [undefined] and [null]. *)
Definition get (v : JsValue) (name : string) : Result JsValue :=
  match v with
  | JUndefined | JNull => Err TypeError
  | _ => Ok (js_get v name)
  end.

Definition is_CryptoKey (v : JsValue) : bool :=
  match constructor_name v with
  | Some n => String.eqb n "CryptoKey"
  | None => false
  end.

Definition hmac (secretKey message algorithm : JsValue) : Async JsString :=
  let algorithm := or_default algorithm (JString (str "SHA-256")) in
  lift (validateAlgorithm algorithm) ;;;
  messageUint8Array <- lift (validateValueOrConvertToUint8Array message) ;;
  keyUint8Array <-
    (if negb (is_CryptoKey secretKey)
     then bytes <- lift (validateValueOrConvertToUint8Array secretKey) ;;
          Ret (JUint8Array bytes)
     else Ret secretKey) ;;
  cryptoKey <-
    (if negb (is_CryptoKey secretKey)
     then k <- await (ImportKey "raw" keyUint8Array
                        {| ki_name := "HMAC"; ki_hash := algorithm |}
                        false ["sign"%string]) ;;
          Ret (JCryptoKey k)
     else Ret secretKey) ;;
  signature <- await (Sign "HMAC" cryptoKey messageUint8Array) ;;
  Ret (hex_of_bytes signature).

Section Host.

(** ToNumber on a string is the host's numeric-literal reader; the
    development never looks inside it. *)
Variable StringToNumber : JsString -> JsNumber.

Definition decimal_of_byte (b : byte) : JsString :=
  str (NilEmpty.string_of_uint (N.to_uint (Byte.to_N b))).

(** [Uint8Array.prototype.toString]: the elements joined by commas. *)
Fixpoint join_comma (bs : list byte) : JsString :=
  match bs with
  | [] => []
  | [b] => decimal_of_byte b
  | b :: bs' => decimal_of_byte b ++ str "," ++ join_comma bs'
  end.

(** [BigInt.prototype.toString] *)
Definition decimal_of_bigint (z : Z) : JsString :=
  str (NilZero.string_of_int (Z.to_int z)).

(** StringToNumber(ToString(v)): the number an object is converted to
    through its string, or the [TypeError] of a value without a string.
    The string of a number reads back as that number; ["true"],
    ["[object Object]"], ["[object CryptoKey]"] and every string with a
    comma in it are no numeric literals and read as NaN.  In an array
    [undefined] and [null] are written as the empty string. *)
Fixpoint number_of_string_of (v : JsValue) : Result JsNumber :=
  match v with
  | JUndefined | JNull | JBool _ | JCryptoKey _ => Ok NaN
  | JNumber n => Ok n
  | JString s | JStringObject s => Ok (StringToNumber s)
  | JUint8Array bs => Ok (StringToNumber (join_comma bs))
  | JObject _ _ => if stringifies v then Ok NaN else Err TypeError
  | JSymbol => Err TypeError
  | JBigInt z => Ok (StringToNumber (decimal_of_bigint z))
  | JArray es =>
      match es with
      | [] => Ok (StringToNumber [])
      | [e] =>
          match e with
          | JUndefined | JNull => Ok (StringToNumber [])
          | _ => number_of_string_of e
          end
      | _ :: _ :: _ => if stringifies v then Ok NaN else Err TypeError
      end
  end.

(** ToNumber as [keyLength * 8] applies it to its left operand: a symbol
    has no number, a BigInt does not mix with the number 8, and an object
    that is no [String] goes through its string. *)
Definition ToNumber (v : JsValue) : Result JsNumber :=
  match v with
  | JUndefined => Ok NaN
  | JNull => Ok (Int 0)
  | JBool b => Ok (Int (if b then 1 else 0))
  | JNumber n => Ok n
  | JString s | JStringObject s => Ok (StringToNumber s)
  | JSymbol | JBigInt _ => Err TypeError
  | JUint8Array _ | JCryptoKey _ | JObject _ _ | JArray _ =>
      number_of_string_of v
  end.

Definition generateSecretKey (options : JsValue) : Async CryptoKey :=
  let options := or_default options empty_object in
  keyLength <- lift (get options "keyLength") ;;
  algorithm <- lift (get options "algorithm") ;;
  let keyLength := or_default keyLength (JNumber (Int 64)) in
  let algorithm := or_default algorithm (JString (str "SHA-256")) in
  lift (validateAlgorithm algorithm) ;;;
  length <-
    (if truthy keyLength
     then n <- lift (ToNumber keyLength) ;; Ret (Some (times8 n))
     else Ret None) ;;
  await (GenerateKey
           {| kg_name := "HMAC"; kg_hash := algorithm; kg_length := length |}
           true ["sign"%string]).

Definition webTimingSafeEqual (left right options : JsValue) : Async bool :=
  let options := or_default options empty_object in
  (if truthy (opt_get options "keyAlgorithm")
   then lift (validateAlgorithm (opt_get options "keyAlgorithm"))
   else Ret tt) ;;;
  (if truthy (opt_get options "hmacAlgorithm")
   then lift (validateAlgorithm (opt_get options "hmacAlgorithm"))
   else Ret tt) ;;;
  secretKey <-
    (if truthy (opt_get options "secretKey")
     then Ret (opt_get options "secretKey")
     else
       keyAlgorithm <- lift (get options "keyAlgorithm") ;;
       keyLength <- lift (get options "keyLength") ;;
       k <- generateSecretKey
              (object_of_spreads
                 (if truthy keyAlgorithm then keyAlgorithm else empty_object)
                 (if truthy keyLength then keyLength else empty_object)) ;;
       Ret (JCryptoKey k)) ;;
  leftUint8Array <- lift (validateValueOrConvertToUint8Array left) ;;
  rightUint8Array <- lift (validateValueOrConvertToUint8Array right) ;;
  if negb (Nat.eqb (length leftUint8Array) (length rightUint8Array))
     || Nat.eqb (length leftUint8Array) 0
  then Ret false
  else
    let hmacAlgorithm :=
      if truthy (opt_get options "hmacAlgorithm")
      then js_get options "hmacAlgorithm"
      else JUndefined in
    hmacs <- all2 (hmac secretKey (JUint8Array leftUint8Array) hmacAlgorithm)
                  (hmac secretKey (JUint8Array rightUint8Array) hmacAlgorithm) ;;
    Ret (jsstring_eqb (fst hmacs) (snd hmacs)).

End Host.

(* ------------------------------------------------------------------ *)
(** ** The provider and the interpretation of a computation *)

(** [subtleCrypto] with the state it works on (its source of randomness
    among it): each operation takes the state and returns the outcome with
    the new state.  The provider also is what decides, of two calls that
    are pending, which one settles first. *)
Record SubtleCrypto (S : Type) := {
  sc_generateKey :
    HmacKeyGenParams -> bool -> list string -> S -> (string + CryptoKey) * S;
  sc_importKey :
    string -> JsValue -> HmacImportParams -> bool -> list string -> S ->
    (string + CryptoKey) * S;
  sc_sign :
    string -> JsValue -> list byte -> S -> (string + list byte) * S;
  sc_settles_first : S -> bool * S
}.

Section Run.

Variable S : Type.
Variable subtleCrypto : SubtleCrypto S.

Definition perform (c : Call) (s : S) : Outcome c * S :=
  match c return Outcome c * S with
  | GenerateKey a e u => sc_generateKey subtleCrypto a e u s
  | ImportKey f d a e u => sc_importKey subtleCrypto f d a e u s
  | Sign a k d => sc_sign subtleCrypto a k d s
  end.

(** The provider's state and the calls made so far, oldest first. *)
Record World := {
  w_state : S;
  w_calls : list Call
}.

Fixpoint run {A} (m : Async A) (w : World) : Result A * World :=
  match m with
  | Ret a => (Ok a, w)
  | Throw e => (Err e, w)
  | Await c k =>
      let (o, s') := perform c (w_state w) in
      run (k o) {| w_state := s'; w_calls := w_calls w ++ [c] |}
  | Settle k =>
      let (first, s') := sc_settles_first subtleCrypto (w_state w) in
      run (k first) {| w_state := s'; w_calls := w_calls w |}
  end.

(** A call from a fresh log. *)
Definition exec {A} (m : Async A) (s : S) : Result A * list Call :=
  let (r, w) := run m {| w_state := s; w_calls := [] |} in (r, w_calls w).

End Run.

(* ------------------------------------------------------------------ *)
(** ** What is expected of a provider *)

(** The hash a WebCrypto provider reads from a [hash] member. *)
Definition hash_of_value (v : JsValue) : option HashAlg :=
  match v with
  | JString s =>
      if jsstring_eqb s (str "SHA-1") then Some SHA1
      else if jsstring_eqb s (str "SHA-256") then Some SHA256
      else if jsstring_eqb s (str "SHA-384") then Some SHA384
      else if jsstring_eqb s (str "SHA-512") then Some SHA512
      else None
  | _ => None
  end.

Section Contract.

Variable S : Type.
Variable subtleCrypto : SubtleCrypto S.

(** Importing and signing are functions of their arguments: the outcome
    does not depend on the state of the provider. *)
Definition deterministic : Prop :=
  (forall f d a e u s1 s2,
      fst (sc_importKey subtleCrypto f d a e u s1)
      = fst (sc_importKey subtleCrypto f d a e u s2))
  /\ (forall a k d s1 s2,
      fst (sc_sign subtleCrypto a k d s1) = fst (sc_sign subtleCrypto a k d s2)).

(** The part of the WebCrypto contract for HMAC the properties below rely
    on.  A key of 512 bits for signing is generated for every supported
    hash, and raw key material that is not empty is imported for signing;
    a key that was generated or imported is bound to the hash and has the
    usages that were asked for; signing under a key that may sign gives a
    digest of the size of the hash of the key. *)
Record conforming : Prop := {
  cf_deterministic : deterministic;
  cf_generate :
    forall v h e s,
      hash_of_value v = Some h ->
      exists k s',
        sc_generateKey subtleCrypto
          {| kg_name := "HMAC"; kg_hash := v; kg_length := Some (Int 512) |}
          e ["sign"%string] s
        = (inr k, s');
  cf_generate_bound :
    forall v h len e u s k,
      hash_of_value v = Some h ->
      fst (sc_generateKey subtleCrypto
             {| kg_name := "HMAC"; kg_hash := v; kg_length := len |} e u s)
      = inr k ->
      ck_hash k = h /\ ck_usages k = u;
  cf_import :
    forall b bs v h s,
      hash_of_value v = Some h ->
      exists k,
        fst (sc_importKey subtleCrypto "raw" (JUint8Array (b :: bs))
               {| ki_name := "HMAC"; ki_hash := v |} false ["sign"%string] s)
        = inr k;
  cf_import_bound :
    forall d v h e u s k,
      hash_of_value v = Some h ->
      fst (sc_importKey subtleCrypto "raw" d
             {| ki_name := "HMAC"; ki_hash := v |} e u s)
      = inr k ->
      ck_hash k = h /\ ck_usages k = u;
  cf_sign :
    forall k d s,
      In "sign"%string (ck_usages k) ->
      exists sig,
        fst (sc_sign subtleCrypto "HMAC" (JCryptoKey k) d s) = inr sig
        /\ length sig = digest_bytes (ck_hash k)
}.

End Contract.

(* ------------------------------------------------------------------ *)
(** ** A small provider to evaluate the functions on *)

(** A deterministic stand-in for [subtleCrypto] with the shape of the real
    one: its state is a counter that stands for the random source, and its
    digests have the size of the hash of the key.  The digest bytes are a
    keyed checksum, not an HMAC. *)
Module Toy.

Definition block_bits (h : HashAlg) : Z :=
  match h with
  | SHA1 | SHA256 => 512
  | SHA384 | SHA512 => 1024
  end%Z.

Definition mac (k : CryptoKey) (data : list byte) : list byte :=
  let seed :=
    fold_left (fun acc b => (acc * 31 + Byte.to_N b) mod 65521)
      (ck_material k ++ [x3a] ++ data) 7 in
  map (fun i => u8 (seed * (N.of_nat i + 1) + N.of_nat i))
    (seq 0 (digest_bytes (ck_hash k))).

Definition generateKey (a : HmacKeyGenParams) (e : bool) (u : list string)
  (s : N) : (string + CryptoKey) * N :=
  match hash_of_value (kg_hash a) with
  | None => (inl "NotSupportedError"%string, s)
  | Some h =>
      let bits :=
        match kg_length a with
        | None => Some (block_bits h)
        | Some (Int z) => if (0 <? z)%Z then Some z else None
        | Some NaN => None
        | Some (Infinity _) => None
        end in
      match bits with
      | None => (inl "OperationError"%string, s)
      | Some z =>
          (inr {| ck_hash := h; ck_length := z; ck_extractable := e;
                  ck_usages := u;
                  ck_material := repeat (u8 s) (Z.to_nat (z / 8)) |},
           s + 1)
      end
  end.

Definition importKey (f : string) (d : JsValue) (a : HmacImportParams)
  (e : bool) (u : list string) (s : N) : (string + CryptoKey) * N :=
  match d, hash_of_value (ki_hash a) with
  | JUint8Array (b :: bs), Some h =>
      (inr {| ck_hash := h;
              ck_length := 8 * Z.of_nat (length (b :: bs));
              ck_extractable := e; ck_usages := u;
              ck_material := b :: bs |}, s)
  | JUint8Array [], _ => (inl "DataError"%string, s)
  | _, _ => (inl "NotSupportedError"%string, s)
  end.

Definition sign (a : string) (k : JsValue) (d : list byte) (s : N)
  : (string + list byte) * N :=
  match k with
  | JCryptoKey key =>
      if existsb (String.eqb "sign") (ck_usages key)
      then (inr (mac key d), s)
      else (inl "InvalidAccessError"%string, s)
  | _ => (inl "TypeError"%string, s)
  end.

(** Of two pending calls the first settles first in an even state, the
    second in an odd one. *)
Definition settles_first (s : N) : bool * N := (N.even s, s).

Definition subtle : SubtleCrypto N :=
  {| sc_generateKey := generateKey;
     sc_importKey := importKey;
     sc_sign := sign;
     sc_settles_first := settles_first |}.

(** The host's reader of numeric strings, on the unsigned decimal
    numerals; everything else reads as NaN here. *)
Fixpoint digits (s : JsString) (acc : Z) : JsNumber :=
  match s with
  | [] => Int acc
  | c :: s' =>
      if (48 <=? c) && (c <=? 57)
      then digits s' (acc * 10 + Z.of_N (c - 48))%Z
      else NaN
  end.

Definition StringToNumber (s : JsString) : JsNumber := digits s 0%Z.

Definition compare (l r o : JsValue) : Result bool * list Call :=
  exec subtle (webTimingSafeEqual StringToNumber l r o) 0.

End Toy.

(* ------------------------------------------------------------------ *)
(** ** Vocabulary of the properties *)

(** Text or a byte sequence: what the coercion accepts. *)
Definition is_text_or_bytes (v : JsValue) : bool :=
  match v with
  | JString _ | JStringObject _ | JUint8Array _ => true
  | _ => false
  end.

(** One of the four supported identifiers. *)
Definition supported (v : JsValue) : Prop :=
  v = JString (str "SHA-1") \/ v = JString (str "SHA-256")
  \/ v = JString (str "SHA-384") \/ v = JString (str "SHA-512").

(** A call that does cryptographic work on data: an import or a
    signature. *)
Definition is_hmac_work (c : Call) : bool :=
  match c with
  | GenerateKey _ _ _ => false
  | ImportKey _ _ _ _ _ => true
  | Sign _ _ _ => true
  end.

(** A lowercase hexadecimal digit, as a code unit. *)
Definition is_lower_hex (c : N) : bool :=
  ((48 <=? c) && (c <=? 57)) || ((97 <=? c) && (c <=? 102)).

(** The call [generateSecretKey] makes when it is given neither a length
    nor an algorithm. *)
Definition default_keygen : Call :=
  GenerateKey
    {| kg_name := "HMAC";
       kg_hash := JString (str "SHA-256");
       kg_length := Some (Int 512) |}
    true ["sign"%string].

(** Two computations that make the same calls and go on in the same way
    after every outcome. *)
Inductive same {A} : Async A -> Async A -> Prop :=
| same_ret (a : A) : same (Ret a) (Ret a)
| same_throw (e : Error) : same (Throw e) (Throw e)
| same_await (c : Call) (k1 k2 : Outcome c -> Async A) :
    (forall o, same (k1 o) (k2 o)) -> same (Await c k1) (Await c k2)
| same_settle (k1 k2 : bool -> Async A) :
    (forall first, same (k1 first) (k2 first)) ->
    same (Settle k1) (Settle k2).

(** The failure of a validator on a value it rejects: the error [e] that
    names the value, or the [TypeError] of the message about it when the
    value has no string. *)
Definition rejection (e : JsValue -> Error) (v : JsValue) : Error :=
  if stringifies v then e v else TypeError.

(** An algorithm option that is left out (or falsy) or supported. *)
Definition algorithm_option_ok (v : JsValue) : Prop :=
  truthy v = false \/ supported v.

(** A [keyLength] option that is left out (or falsy) or a number. *)
Definition keyLength_option_ok (v : JsValue) : Prop :=
  truthy v = false \/ exists n, v = JNumber n.

(** Options as the documentation of [webTimingSafeEqual] types them. *)
Definition valid_options (options : JsValue) : Prop :=
  options <> JNull
  /\ algorithm_option_ok (opt_get options "keyAlgorithm")
  /\ algorithm_option_ok (opt_get options "hmacAlgorithm")
  /\ keyLength_option_ok (opt_get options "keyLength").

(** The algorithm [webTimingSafeEqual] hands to [hmac]. *)
Definition hmacAlgorithm_of (options : JsValue) : JsValue :=
  if truthy (opt_get options "hmacAlgorithm")
  then js_get options "hmacAlgorithm"
  else JUndefined.

(** The rest of [webTimingSafeEqual] once the key is there: the coercion
    of both sides, the length test and the two HMACs. *)
Definition comparison (secretKey left right hmacAlgorithm : JsValue)
  : Async bool :=
  leftUint8Array <- lift (validateValueOrConvertToUint8Array left) ;;
  rightUint8Array <- lift (validateValueOrConvertToUint8Array right) ;;
  if negb (Nat.eqb (length leftUint8Array) (length rightUint8Array))
     || Nat.eqb (length leftUint8Array) 0
  then Ret false
  else
    hmacs <- all2 (hmac secretKey (JUint8Array leftUint8Array) hmacAlgorithm)
                  (hmac secretKey (JUint8Array rightUint8Array) hmacAlgorithm) ;;
    Ret (jsstring_eqb (fst hmacs) (snd hmacs)).

(** An object without its property [name]. *)
Definition without (name : string) (ps : Props) : Props :=
  filter (fun p => negb (String.eqb (fst p) name)) ps.

(** A key [hmac] can sign with under a conforming provider: a key handle
    that may sign, or text or bytes that are not empty. *)
Definition usable_key (key : JsValue) : Prop :=
  (exists k, key = JCryptoKey k /\ In "sign"%string (ck_usages k))
  \/ (exists s, (key = JString s \/ key = JStringObject s) /\ s <> [])
  \/ (exists bytes, key = JUint8Array bytes /\ bytes <> []).

(** Sample values for the evaluations below. *)
Definition sample_key512 : CryptoKey :=
  {| ck_hash := SHA512; ck_length := 512; ck_extractable := true;
     ck_usages := ["sign"%string]; ck_material := repeat x00 64 |}.

(** The two shapes of a successful [hmac]: sign under the key as it is,
    or import the raw key first. *)
Definition sign_only (key : JsValue) (data : list byte) : Async JsString :=
  signature <- await (Sign "HMAC" key data) ;;
  Ret (hex_of_bytes signature).

Definition import_then_sign (raw : list byte) (hash : JsValue)
  (data : list byte) : Async JsString :=
  k <- await (ImportKey "raw" (JUint8Array raw)
                {| ki_name := "HMAC"; ki_hash := hash |}
                false ["sign"%string]) ;;
  sign_only (JCryptoKey k) data.

(** A value to compare that is not empty: bytes or text. *)
Definition nonempty_input (a : JsValue) : Prop :=
  (exists bytes, a = JUint8Array bytes /\ bytes <> [])
  \/ (exists s, (a = JString s \/ a = JStringObject s) /\ s <> []).

(** A computation whose calls are key generations only and whose every
    outcome satisfies [P]. *)
Inductive quiet {A} (P : Result A -> Prop) : Async A -> Prop :=
| quiet_ret (a : A) : P (Ok a) -> quiet P (Ret a)
| quiet_throw (e : Error) : P (Err e) -> quiet P (Throw e)
| quiet_await (c : Call) (k : Outcome c -> Async A) :
    is_hmac_work c = false ->
    (forall o, quiet P (k o)) ->
    quiet P (Await c k).


(** The key handle [hmac] signs with: a handle given as key is used as it
    is, text or bytes are coerced and the provider imports them for the
    hash of the call. *)
Definition signing_key S (subtleCrypto : SubtleCrypto S)
  (key algorithm : JsValue) (k : CryptoKey) : Prop :=
  key = JCryptoKey k
  \/ (is_CryptoKey key = false
      /\ exists raw,
          validateValueOrConvertToUint8Array key = Ok raw
          /\ forall s,
              fst (sc_importKey subtleCrypto "raw" (JUint8Array raw)
                     {| ki_name := "HMAC";
                        ki_hash := or_default algorithm
                                     (JString (str "SHA-256")) |}
                     false ["sign"%string] s)
              = inr k).

(** The calls [hmac] makes before it signs: none for a key handle, the
    import of the coerced key otherwise. *)
Definition import_calls (key algorithm : JsValue) : list Call :=
  if is_CryptoKey key then []
  else
    match validateValueOrConvertToUint8Array key with
    | inl _ => []
    | inr raw =>
        [ImportKey "raw" (JUint8Array raw)
           {| ki_name := "HMAC";
              ki_hash := or_default algorithm (JString (str "SHA-256")) |}
           false ["sign"%string]]
    end.


(** [yields subtleCrypto m r cs]: in every state of the provider the
    computation [m] makes the calls [cs], one after the other, and ends
    with [r]; every call on its way has the same outcome in every state. *)
Inductive yields S (subtleCrypto : SubtleCrypto S) {A}
  : Async A -> Result A -> list Call -> Prop :=
| yields_ret (a : A) : yields subtleCrypto (Ret a) (Ok a) []
| yields_throw (e : Error) : yields subtleCrypto (Throw e) (Err e) []
| yields_await (c : Call) (k : Outcome c -> Async A) (o : Outcome c)
    (r : Result A) (cs : list Call) :
    (forall s, fst (perform subtleCrypto c s) = o) ->
    yields subtleCrypto (k o) r cs ->
    yields subtleCrypto (Await c k) r (c :: cs).

(** [zs] is a merge of [xs] and [ys]: each in its order. *)
Inductive interleaved {A} : list A -> list A -> list A -> Prop :=
| interleaved_nil : interleaved [] [] []
| interleaved_left (x : A) (xs ys zs : list A) :
    interleaved xs ys zs -> interleaved (x :: xs) ys (x :: zs)
| interleaved_right (y : A) (xs ys zs : list A) :
    interleaved xs ys zs -> interleaved xs (y :: ys) (y :: zs).

(** The calls of two [async] functions that were called one after the
    other and are waited for together: each makes its first call at once,
    the later calls interleave. *)
Definition started {A} (xs ys zs : list A) : Prop :=
  match xs, ys with
  | [], _ => zs = ys
  | _, [] => zs = xs
  | x :: xs', y :: ys' =>
      exists zs', zs = x :: y :: zs' /\ interleaved xs' ys' zs'
  end.

(** What [Promise.all] can end with when its two promises end with [r1]
    and [r2]: both values, the one rejection, or either of two
    rejections. *)
Definition race_outcome {A B} (r1 : Result A) (r2 : Result B)
  (r : Result (A * B)) : Prop :=
  match r1, r2 with
  | inr a, inr b => r = Ok (a, b)
  | inl e, inr _ => r = Err e
  | inr _, inl e => r = Err e
  | inl e1, inl e2 => r = Err e1 \/ r = Err e2
  end.


(** An options object from its properties. *)
Definition object (ps : Props) : JsValue := JObject (Some "Object"%string) ps.

(* ------------------------------------------------------------------ *)
(** ** Basic facts *)

Lemma jsstring_eqb_eq (a b : JsString) : jsstring_eqb a b = true <-> a = b.
Proof.
  revert b; induction a as [|x a IH]; intros [|y b]; simpl;
    try (split; [discriminate | congruence]); try tauto.
  rewrite andb_true_iff, N.eqb_eq, IH. split.
  - intros [-> ->]; reflexivity.
  - intros E; injection E; auto.
Qed.

Lemma jsstring_eqb_refl (a : JsString) : jsstring_eqb a a = true.
Proof. apply jsstring_eqb_eq; reflexivity. Qed.

Lemma includes_supported (v : JsValue) :
  includes allowedAlgorithms v = true <-> supported v.
Proof.
  unfold supported, includes, allowedAlgorithms. split.
  - destruct v; try discriminate. simpl.
    rewrite !orb_true_iff, !jsstring_eqb_eq.
    intros [E|[E|[E|[E|E]]]]; try discriminate; subst; tauto.
  - intros [E|[E|[E|E]]]; subst; reflexivity.
Qed.

Lemma validateAlgorithm_ok (v : JsValue) :
  supported v -> validateAlgorithm v = Ok tt.
Proof.
  intros H. unfold validateAlgorithm.
  apply includes_supported in H. rewrite H. reflexivity.
Qed.

Lemma validateAlgorithm_err (v : JsValue) :
  ~ supported v -> validateAlgorithm v = Err (rejection InvalidAlgorithm v).
Proof.
  intros H. unfold validateAlgorithm, rejection, template.
  destruct (includes allowedAlgorithms v) eqn:E.
  - apply includes_supported in E. contradiction.
  - destruct (stringifies v); reflexivity.
Qed.

Lemma supported_dec (v : JsValue) : supported v \/ ~ supported v.
Proof.
  destruct (includes allowedAlgorithms v) eqn:E.
  - left. apply includes_supported; assumption.
  - right. intros H. apply includes_supported in H. congruence.
Qed.

Lemma validate_value_ok (v : JsValue) :
  is_text_or_bytes v = true ->
  exists bytes, validateValueOrConvertToUint8Array v = Ok bytes.
Proof. destruct v; simpl; try discriminate; eauto. Qed.

Lemma validate_value_err (v : JsValue) :
  is_text_or_bytes v = false ->
  validateValueOrConvertToUint8Array v = Err (rejection InvalidInputType v).
Proof.
  intros H. unfold rejection.
  destruct v; try discriminate H;
    unfold validateValueOrConvertToUint8Array, template;
    match goal with
    | |- context [stringifies ?x] => destruct (stringifies x); reflexivity
    end.
Qed.

Lemma times8_exact (n : Z) :
  (Z.abs n < 2 ^ 1021)%Z -> times8 (Int n) = Int (n * 8).
Proof.
  intros H. unfold times8, double_limit.
  assert (E : (2 ^ 1024 = 2 ^ 1021 * 8)%Z).
  { change 1024%Z with (1021 + 3)%Z. rewrite Z.pow_add_r by lia.
    f_equal. }
  rewrite E. generalize dependent (2 ^ 1021)%Z. intros p H _.
  destruct (Z.leb_spec (p * 8) (Z.abs (n * 8))) as [Hle|_]; [lia|reflexivity].
Qed.


Lemma times8_64 : times8 (Int 64) = Int 512.
Proof. vm_compute. reflexivity. Qed.

Lemma same_refl {A} (m : Async A) : same m m.
Proof. induction m; constructor; auto. Qed.

Lemma same_bind {A B} (m1 m2 : Async A) (f1 f2 : A -> Async B) :
  same m1 m2 -> (forall a, same (f1 a) (f2 a)) ->
  same (bind m1 f1) (bind m2 f2).
Proof.
  intros Hm Hf. induction Hm; simpl; auto; constructor; auto.
Qed.

Section RunFacts.

Variable S : Type.
Variable subtleCrypto : SubtleCrypto S.

Lemma run_bind {A B} (m : Async A) (f : A -> Async B) (w : World S) :
  run subtleCrypto (bind m f) w =
  match run subtleCrypto m w with
  | (inr a, w') => run subtleCrypto (f a) w'
  | (inl e, w') => (Err e, w')
  end.
Proof.
  revert w. induction m as [a|e|c k IH|k IH]; intros w; simpl;
    try reflexivity.
  - destruct (perform subtleCrypto c (w_state w)) as [o s']. apply IH.
  - destruct (sc_settles_first subtleCrypto (w_state w)) as [first s'].
    apply IH.
Qed.


Lemma run_same {A} (m1 m2 : Async A) :
  same m1 m2 -> forall w : World S, run subtleCrypto m1 w = run subtleCrypto m2 w.
Proof.
  induction 1 as [a|e|c k1 k2 _ IH|k1 k2 _ IH]; intros w; simpl;
    try reflexivity.
  - destruct (perform subtleCrypto c (w_state w)) as [o s']. apply IH.
  - destruct (sc_settles_first subtleCrypto (w_state w)) as [first s'].
    apply IH.
Qed.

End RunFacts.

(* ------------------------------------------------------------------ *)
(** ** Two computations that are waited for together *)

Lemma race_eq {A B} (t1 : Async A) (t2 : Async B) :
  race t1 t2 =
  Settle (fun first : bool =>
    if first then
      match t1 with
      | Ret a => b <- t2 ;; Ret (a, b)
      | Throw e => background t2 (Throw e)
      | Await c k => Await c (fun o => race (k o) t2)
      | Settle k => Settle (fun x => race (k x) t2)
      end
    else
      match t2 with
      | Ret b => a <- t1 ;; Ret (a, b)
      | Throw e => background t1 (Throw e)
      | Await c k => Await c (fun o => race t1 (k o))
      | Settle k => Settle (fun x => race t1 (k x))
      end).
Proof. destruct t1, t2; reflexivity. Qed.

Lemma interleaved_nil_l {A} (ys : list A) : interleaved [] ys ys.
Proof. induction ys; constructor; assumption. Qed.

Lemma interleaved_nil_r {A} (xs : list A) : interleaved xs [] xs.
Proof. induction xs; constructor; assumption. Qed.

Lemma interleaved_one_one {A} (x y : A) (zs : list A) :
  interleaved [x] [y] zs -> zs = [x; y] \/ zs = [y; x].
Proof.
  intros H. inversion H as [|x0 xs ys zs0 H0|y0 xs ys zs0 H0]; subst.
  - inversion H0 as [| |y1 xs1 ys1 zs1 H1]; subst. inversion H1. auto.
  - inversion H0 as [|x1 xs1 ys1 zs1 H1|]; subst. inversion H1. auto.
Qed.



Section Together.

Variable S : Type.
Variable subtleCrypto : SubtleCrypto S.

Lemma run_yields {A} (m : Async A) (r : Result A) (cs : list Call) :
  yields subtleCrypto m r cs ->
  forall w : World S,
    exists s',
      run subtleCrypto m w
      = (r, {| w_state := s'; w_calls := w_calls w ++ cs |}).
Proof.
  induction 1 as [a|e|c k o r cs Ho _ IH]; intros w.
  - exists (w_state w). rewrite app_nil_r. destruct w; reflexivity.
  - exists (w_state w). rewrite app_nil_r. destruct w; reflexivity.
  - cbn [run]. specialize (Ho (w_state w)).
    destruct (perform subtleCrypto c (w_state w)) as [o' s1].
    cbn [fst] in Ho. subst o'.
    destruct (IH {| w_state := s1; w_calls := w_calls w ++ [c] |}) as [s' E].
    exists s'. rewrite E. cbn [w_calls]. rewrite <- app_assoc. reflexivity.
Qed.

Lemma run_bind_yields {A B} (m : Async A) (f : A -> Async B) (r : Result A)
  (cs : list Call) :
  yields subtleCrypto m r cs ->
  forall w : World S,
    exists s',
      run subtleCrypto (bind m f) w
      = match r with
        | inl e => (Err e, {| w_state := s'; w_calls := w_calls w ++ cs |})
        | inr a =>
            run subtleCrypto (f a)
              {| w_state := s'; w_calls := w_calls w ++ cs |}
        end.
Proof.
  intros H w. destruct (run_yields H w) as [s' E]. exists s'.
  rewrite run_bind, E. destruct r; reflexivity.
Qed.

Lemma run_background_yields {A B} (m : Async A) (t : Async B) (r : Result A)
  (cs : list Call) :
  yields subtleCrypto m r cs ->
  forall w : World S,
    exists s',
      run subtleCrypto (background m t) w
      = run subtleCrypto t {| w_state := s'; w_calls := w_calls w ++ cs |}.
Proof.
  induction 1 as [a|e|c k o r cs Ho _ IH]; intros w.
  - exists (w_state w). rewrite app_nil_r. destruct w; reflexivity.
  - exists (w_state w). rewrite app_nil_r. destruct w; reflexivity.
  - cbn [background run]. specialize (Ho (w_state w)).
    destruct (perform subtleCrypto c (w_state w)) as [o' s1].
    cbn [fst] in Ho. subst o'.
    destruct (IH {| w_state := s1; w_calls := w_calls w ++ [c] |}) as [s' E].
    exists s'. rewrite E. cbn [w_calls]. rewrite <- app_assoc. reflexivity.
Qed.

(** Two computations whose calls have fixed outcomes, waited for together:
    whatever the order in which the host settles their calls, the calls of
    each are made in its order, and the outcome is [race_outcome].  First
    for every stage of the second computation, given what happens when the
    first one is resumed. *)
Lemma run_race_second {A B} (t1 : Async A) (r1 : Result A) (cs1 : list Call) :
  yields subtleCrypto t1 r1 cs1 ->
  (forall (t2 : Async B) (r2 : Result B) (cs2 : list Call),
      yields subtleCrypto t2 r2 cs2 ->
      forall w : World S,
        exists s' cs r,
          run subtleCrypto
            (match t1 with
             | Ret a => b <- t2 ;; Ret (a, b)
             | Throw e => background t2 (Throw e)
             | Await c k => Await c (fun o => race (k o) t2)
             | Settle k => Settle (fun x => race (k x) t2)
             end) w
          = (r, {| w_state := s'; w_calls := w_calls w ++ cs |})
          /\ race_outcome r1 r2 r
          /\ interleaved cs1 cs2 cs) ->
  forall (t2 : Async B) (r2 : Result B) (cs2 : list Call),
    yields subtleCrypto t2 r2 cs2 ->
    forall w : World S,
      exists s' cs r,
        run subtleCrypto (race t1 t2) w
        = (r, {| w_state := s'; w_calls := w_calls w ++ cs |})
        /\ race_outcome r1 r2 r
        /\ interleaved cs1 cs2 cs.
Proof.
  intros H1 Hfirst.
  induction 1 as [b|e|c2 k2 o2 r2 cs2 Ho2 H2 IH2]; intros w;
    rewrite race_eq; cbn [run];
    destruct (sc_settles_first subtleCrypto (w_state w)) as [[|] s0].
  - exact (Hfirst _ _ _ (yields_ret subtleCrypto b)
             {| w_state := s0; w_calls := w_calls w |}).
  - destruct (run_bind_yields (fun a => Ret (a, b)) H1
                {| w_state := s0; w_calls := w_calls w |}) as [s' E].
    exists s', cs1. rewrite E. cbn [w_calls].
    destruct r1 as [e|a]; eexists; (split; [reflexivity|]);
      (split; [reflexivity|apply interleaved_nil_r]).
  - exact (Hfirst _ _ _ (yields_throw subtleCrypto e)
             {| w_state := s0; w_calls := w_calls w |}).
  - destruct (run_background_yields (Throw e : Async (A * B)) H1
                {| w_state := s0; w_calls := w_calls w |}) as [s' E].
    exists s', cs1, (Err e). rewrite E. cbn [run w_calls].
    split; [reflexivity|]. split; [|apply interleaved_nil_r].
    destruct r1; cbn; auto.
  - exact (Hfirst _ _ _ (yields_await k2 Ho2 H2)
             {| w_state := s0; w_calls := w_calls w |}).
  - cbn [run w_state w_calls]. specialize (Ho2 s0).
    destruct (perform subtleCrypto c2 s0) as [o' s1].
    cbn [fst] in Ho2. subst o'.
    destruct (IH2 {| w_state := s1; w_calls := w_calls w ++ [c2] |})
      as (s' & cs & r & E & Hr & Hi).
    exists s', (c2 :: cs), r. rewrite E. cbn [w_calls].
    rewrite <- app_assoc. split; [reflexivity|]. split; [assumption|].
    constructor; assumption.
Qed.

Lemma run_race {A B} (t1 : Async A) (r1 : Result A) (cs1 : list Call) :
  yields subtleCrypto t1 r1 cs1 ->
  forall (t2 : Async B) (r2 : Result B) (cs2 : list Call),
    yields subtleCrypto t2 r2 cs2 ->
    forall w : World S,
      exists s' cs r,
        run subtleCrypto (race t1 t2) w
        = (r, {| w_state := s'; w_calls := w_calls w ++ cs |})
        /\ race_outcome r1 r2 r
        /\ interleaved cs1 cs2 cs.
Proof.
  induction 1 as [a|e|c1 k1 o1 r1 cs1 Ho1 H1 IH1].
  - apply run_race_second; [constructor|].
    intros t2 r2 cs2 H2 w.
    destruct (run_bind_yields (fun b => Ret (a, b)) H2 w) as [s' E].
    exists s', cs2. rewrite E.
    destruct r2 as [e|b]; eexists; (split; [reflexivity|]);
      (split; [reflexivity|apply interleaved_nil_l]).
  - apply run_race_second; [constructor|].
    intros t2 r2 cs2 H2 w.
    destruct (run_background_yields (Throw e : Async (A * B)) H2 w)
      as [s' E].
    exists s', cs2, (Err e). rewrite E. cbn [run].
    split; [reflexivity|]. split; [|apply interleaved_nil_l].
    destruct r2; cbn; auto.
  - apply run_race_second; [exact (yields_await k1 Ho1 H1)|].
    intros t2 r2 cs2 H2 w. cbn [run]. specialize (Ho1 (w_state w)).
    destruct (perform subtleCrypto c1 (w_state w)) as [o' s1].
    cbn [fst] in Ho1. subst o'.
    destruct (IH1 _ _ _ H2 {| w_state := s1; w_calls := w_calls w ++ [c1] |})
      as (s' & cs & r & E & Hr & Hi).
    exists s', (c1 :: cs), r. rewrite E. cbn [w_calls].
    rewrite <- app_assoc. split; [reflexivity|]. split; [assumption|].
    constructor; assumption.
Qed.

(** [Promise.all] on two such computations. *)
Lemma run_all2 {A B} (m1 : Async A) (r1 : Result A) (cs1 : list Call)
  (m2 : Async B) (r2 : Result B) (cs2 : list Call) :
  yields subtleCrypto m1 r1 cs1 ->
  yields subtleCrypto m2 r2 cs2 ->
  forall w : World S,
    exists s' cs r,
      run subtleCrypto (all2 m1 m2) w
      = (r, {| w_state := s'; w_calls := w_calls w ++ cs |})
      /\ race_outcome r1 r2 r
      /\ started cs1 cs2 cs.
Proof.
  intros H1 H2 w.
  destruct H1 as [a|e|c1 k1 o1 r1 cs1 Ho1 H1]; cbn [all2].
  - destruct (run_bind_yields (fun b => Ret (a, b)) H2 w) as [s' E].
    exists s', cs2. rewrite E.
    destruct r2 as [e|b]; eexists; (split; [reflexivity|]);
      (split; reflexivity).
  - destruct (run_background_yields (Throw e : Async (A * B)) H2 w)
      as [s' E].
    exists s', cs2, (Err e). rewrite E. cbn [run].
    split; [reflexivity|]. split; [|reflexivity].
    destruct r2; cbn; auto.
  - destruct H2 as [b|e|c2 k2 o2 r2 cs2 Ho2 H2]; cbn [run];
      specialize (Ho1 (w_state w));
      destruct (perform subtleCrypto c1 (w_state w)) as [o' s1];
      cbn [fst] in Ho1; subst o'.
    + destruct (run_bind_yields (fun a => Ret (a, b)) H1
                  {| w_state := s1; w_calls := w_calls w ++ [c1] |})
        as [s' E].
      exists s', (c1 :: cs1). rewrite E. cbn [w_calls].
      rewrite <- app_assoc.
      destruct r1 as [e|a]; eexists; (split; [reflexivity|]);
        (split; reflexivity).
    + destruct (run_background_yields (Throw e : Async (A * B)) H1
                  {| w_state := s1; w_calls := w_calls w ++ [c1] |})
        as [s' E].
      exists s', (c1 :: cs1), (Err e). rewrite E. cbn [run w_calls].
      rewrite <- app_assoc.
      split; [reflexivity|]. split; [|reflexivity].
      destruct r1; cbn; auto.
    + cbn [run w_state w_calls]. specialize (Ho2 s1).
      destruct (perform subtleCrypto c2 s1) as [o' s2].
      cbn [fst] in Ho2. subst o'.
      destruct (run_race H1 H2
                  {| w_state := s2; w_calls := (w_calls w ++ [c1]) ++ [c2] |})
        as (s' & cs & r & E & Hr & Hi).
      exists s', (c1 :: c2 :: cs), r. rewrite E. cbn [w_calls].
      rewrite <- !app_assoc. split; [reflexivity|]. split; [assumption|].
      exists cs. split; [reflexivity|assumption].
Qed.

End Together.

(* ------------------------------------------------------------------ *)
(** ** The algorithm validator *)




(* ------------------------------------------------------------------ *)
(** ** The HMAC engine: how the key is treated *)

Lemma is_CryptoKey_name (v : JsValue) :
  is_CryptoKey v = true <-> constructor_name v = Some "CryptoKey"%string.
Proof.
  unfold is_CryptoKey. destruct (constructor_name v) as [n|].
  - rewrite String.eqb_eq. split; congruence.
  - split; discriminate.
Qed.





(* ------------------------------------------------------------------ *)
(** ** Key generation *)

Lemma get_object (options : JsValue) (name : string) :
  options <> JNull ->
  get (or_default options empty_object) name
  = Ok (js_get (or_default options empty_object) name).
Proof. destruct options; simpl; congruence. Qed.

Lemma run_await S (subtleCrypto : SubtleCrypto S) (c : Call) (w : World S) :
  run subtleCrypto (await c) w =
  (match fst (perform subtleCrypto c (w_state w)) with
   | inl name => Err (ProviderFailure name)
   | inr r => Ok r
   end,
   {| w_state := snd (perform subtleCrypto c (w_state w));
      w_calls := w_calls w ++ [c] |}).
Proof.
  simpl. destruct (perform subtleCrypto c (w_state w)) as [[name|r] s'];
    reflexivity.
Qed.

(** C6. [generateSecretKey] validates the algorithm before it turns to the
    provider.  With an unsupported algorithm it is a computation without
    any call, which fails with [InvalidAlgorithm] -- for every algorithm
    that has a string, so for ["MD5"] and every other text; a value
    without a string fails with the [TypeError] of the message.  With a
    supported algorithm and a non-zero integer [keyLength] (64 when it is
    left out) whose eightfold is a double still, it makes exactly one
    call, [generateKey] for an extractable HMAC key of [keyLength * 8]
    bits bound to the algorithm and usable for signing, and returns the
    key handle the provider answers with (or rethrows the provider's
    rejection). *)
Theorem generateSecretKey_validates_then_delegates
  (StringToNumber : JsString -> JsNumber) (options : JsValue) :
  options <> JNull ->
  let o := or_default options empty_object in
  let algorithm := or_default (js_get o "algorithm") (JString (str "SHA-256")) in
  let keyLength := or_default (js_get o "keyLength") (JNumber (Int 64)) in
  (~ supported algorithm ->
   generateSecretKey StringToNumber options
   = Throw (if stringifies algorithm
            then InvalidAlgorithm algorithm
            else TypeError))
  /\ (forall s, algorithm = JString s -> ~ supported algorithm ->
      generateSecretKey StringToNumber options
      = Throw (InvalidAlgorithm algorithm))
  /\ (supported algorithm ->
      forall n : Z, keyLength = JNumber (Int n) -> n <> 0%Z ->
      (Z.abs n < 2 ^ 1021)%Z ->
      let call :=
        GenerateKey {| kg_name := "HMAC"; kg_hash := algorithm;
                       kg_length := Some (Int (n * 8)) |}
          true ["sign"%string] in
      generateSecretKey StringToNumber options = await call
      /\ forall S (subtleCrypto : SubtleCrypto S) (w : World S),
          run subtleCrypto (generateSecretKey StringToNumber options) w =
          (match fst (sc_generateKey subtleCrypto
                        {| kg_name := "HMAC"; kg_hash := algorithm;
                           kg_length := Some (Int (n * 8)) |}
                        true ["sign"%string] (w_state w)) with
           | inl name => Err (ProviderFailure name)
           | inr k => Ok k
           end,
           {| w_state :=
                snd (sc_generateKey subtleCrypto
                       {| kg_name := "HMAC"; kg_hash := algorithm;
                          kg_length := Some (Int (n * 8)) |}
                       true ["sign"%string] (w_state w));
              w_calls := w_calls w ++ [call] |})).
Proof.
  intros Hnull o algorithm keyLength.
  assert (Hbad : ~ supported algorithm ->
                 generateSecretKey StringToNumber options
                 = Throw (rejection InvalidAlgorithm algorithm)).
  { intros Hbad. unfold generateSecretKey. fold o.
    unfold o at 1 2. rewrite !get_object by assumption. fold o.
    cbn [lift bind Ok]. fold algorithm.
    rewrite (validateAlgorithm_err Hbad). reflexivity. }
  split; [exact Hbad|]. split.
  - intros s E Hn. rewrite (Hbad Hn), E. reflexivity.
  - intros Hgood n Hlen Hn Hsmall call.
    assert (E : generateSecretKey StringToNumber options = await call).
    { unfold generateSecretKey. fold o.
      unfold o at 1 2. rewrite !get_object by assumption. fold o.
      cbn [lift bind Ok]. fold algorithm keyLength.
      rewrite (validateAlgorithm_ok Hgood). cbn [lift bind Ok].
      rewrite Hlen. cbn [truthy].
      destruct (Z.eqb_spec n 0) as [E0|_]; [contradiction|].
      cbn [negb ToNumber lift bind Ok]. rewrite (times8_exact n Hsmall).
      reflexivity. }
    split; [exact E|].
    intros S subtleCrypto w. rewrite E. exact (run_await subtleCrypto call w).
Qed.

(** C6 on the two calls of the specification, with the small provider:
    [{algorithm: "MD5"}] fails without a call, and
    [{keyLength: 64, algorithm: "SHA-384"}] asks for 512 bits and returns
    the provider's handle. *)
Lemma generateSecretKey_validates_then_delegates_witness :
  generateSecretKey Toy.StringToNumber
    (object [("algorithm"%string, JString (str "MD5"))])
  = Throw (InvalidAlgorithm (JString (str "MD5")))
  /\ exec Toy.subtle
       (generateSecretKey Toy.StringToNumber
          (object [("keyLength"%string, JNumber (Int 64));
                   ("algorithm"%string, JString (str "SHA-384"))])) 0
     = (Ok {| ck_hash := SHA384; ck_length := 512; ck_extractable := true;
              ck_usages := ["sign"%string];
              ck_material := repeat x00 64 |},
        [GenerateKey {| kg_name := "HMAC"; kg_hash := JString (str "SHA-384");
                        kg_length := Some (Int 512) |}
           true ["sign"%string]]).
Proof.
  assert (N1 : object [("algorithm"%string, JString (str "MD5"))] <> JNull)
    by discriminate.
  assert (N2 : object [("keyLength"%string, JNumber (Int 64));
                       ("algorithm"%string, JString (str "SHA-384"))]
               <> JNull) by discriminate.
  assert (L : (Z.abs 64 < 2 ^ 1021)%Z) by (vm_compute; reflexivity).
  assert (Z64 : 64%Z <> 0%Z) by discriminate.
  split.
  - apply (proj1 (proj2 (@generateSecretKey_validates_then_delegates
                           Toy.StringToNumber
                           (object [("algorithm"%string, JString (str "MD5"))])
                           N1))
             (str "MD5") eq_refl).
    intros [H|[H|[H|H]]]; discriminate H.
  - unfold exec.
    rewrite (proj2 (proj2 (proj2 (@generateSecretKey_validates_then_delegates
                      Toy.StringToNumber
                      (object [("keyLength"%string, JNumber (Int 64));
                               ("algorithm"%string, JString (str "SHA-384"))])
                      N2))
               (or_intror (or_intror (or_introl eq_refl)))
               64%Z eq_refl Z64 L)).
    reflexivity.
Defined.

(* ------------------------------------------------------------------ *)
(** ** The comparator: how the key is resolved *)

Section Comparator.

Variable StringToNumber : JsString -> JsNumber.

Lemma opt_get_or_default (options : JsValue) (name : string) :
  opt_get (or_default options empty_object) name = opt_get options name.
Proof. destruct options; reflexivity. Qed.

Lemma js_get_or_default (options : JsValue) (name : string) :
  options <> JNull ->
  js_get (or_default options empty_object) name = opt_get options name.
Proof. destruct options; simpl; congruence. Qed.

Lemma js_get_truthy (options : JsValue) (name : string) :
  truthy (opt_get options name) = true ->
  js_get (or_default options empty_object) name = opt_get options name.
Proof. destruct options; simpl; try discriminate; reflexivity. Qed.

Lemma supported_truthy (v : JsValue) : supported v -> truthy v = true.
Proof. intros [E|[E|[E|E]]]; subst; reflexivity. Qed.

Lemma algorithm_check_passes (v : JsValue) :
  algorithm_option_ok v ->
  (if truthy v then lift (validateAlgorithm v) else Ret tt) = Ret tt.
Proof.
  intros [E|Hs].
  - rewrite E. reflexivity.
  - rewrite (supported_truthy Hs), (validateAlgorithm_ok Hs). reflexivity.
Qed.

(** The object [webTimingSafeEqual] builds for [generateSecretKey] holds
    neither a [keyLength] nor an [algorithm] property: spreading the
    algorithm string gives its characters under the names 0, 1, ..., and
    spreading a number gives nothing.  The key is therefore generated with
    the defaults of [generateSecretKey]. *)
Lemma generated_key_ignores_options (keyAlgorithm keyLength : JsValue) :
  algorithm_option_ok keyAlgorithm ->
  keyLength_option_ok keyLength ->
  generateSecretKey StringToNumber
    (object_of_spreads
       (if truthy keyAlgorithm then keyAlgorithm else empty_object)
       (if truthy keyLength then keyLength else empty_object))
  = await default_keygen.
Proof.
  intros Ha Hl.
  assert (El : spread (if truthy keyLength then keyLength else empty_object) = []).
  { destruct Hl as [E|[n E]].
    - rewrite E. reflexivity.
    - subst. destruct (truthy (JNumber n)); reflexivity. }
  unfold object_of_spreads. rewrite El. simpl app.
  destruct Ha as [E|[E|[E|[E|E]]]].
  - rewrite E. reflexivity.
  - subst. reflexivity.
  - subst. reflexivity.
  - subst. reflexivity.
  - subst. reflexivity.
Qed.

Lemma compare_with_supplied_key (left right options : JsValue) :
  valid_options options ->
  truthy (opt_get options "secretKey") = true ->
  webTimingSafeEqual StringToNumber left right options
  = comparison (opt_get options "secretKey") left right
      (hmacAlgorithm_of options).
Proof.
  intros (Hnull & Hka & Hha & Hkl) Hsk.
  unfold webTimingSafeEqual. rewrite !opt_get_or_default.
  rewrite (algorithm_check_passes Hka), (algorithm_check_passes Hha).
  rewrite Hsk. simpl bind. unfold comparison, hmacAlgorithm_of.
  destruct (truthy (opt_get options "hmacAlgorithm")) eqn:E.
  - rewrite (js_get_truthy _ _ E).
    assert (E' : js_get options "hmacAlgorithm" = opt_get options "hmacAlgorithm")
      by (destruct options; simpl in *; try discriminate; reflexivity).
    rewrite E'. reflexivity.
  - reflexivity.
Qed.

Lemma compare_with_generated_key (left right options : JsValue) :
  valid_options options ->
  truthy (opt_get options "secretKey") = false ->
  same (webTimingSafeEqual StringToNumber left right options)
    (k <- await default_keygen ;;
     comparison (JCryptoKey k) left right (hmacAlgorithm_of options)).
Proof.
  intros (Hnull & Hka & Hha & Hkl) Hsk.
  unfold webTimingSafeEqual. rewrite !opt_get_or_default.
  rewrite (algorithm_check_passes Hka), (algorithm_check_passes Hha).
  rewrite Hsk. rewrite !get_object by assumption.
  rewrite !js_get_or_default by assumption. simpl lift.
  cbn [bind]. rewrite (generated_key_ignores_options Hka Hkl).
  simpl. constructor. intros [name|k]; simpl; [constructor|].
  unfold comparison, hmacAlgorithm_of.
  destruct (truthy (opt_get options "hmacAlgorithm")) eqn:E.
  - assert (E' : js_get options "hmacAlgorithm" = opt_get options "hmacAlgorithm")
      by (destruct options; simpl in *; try discriminate; reflexivity).
    rewrite E'. apply same_refl.
  - apply same_refl.
Qed.

End Comparator.

(* ------------------------------------------------------------------ *)
(** ** Computations that only generate keys *)

Lemma quiet_bind {A B} (P : Result B -> Prop) (m : Async A) (f : A -> Async B) :
  quiet (fun _ => True) m ->
  (forall e, P (Err e)) ->
  (forall a, quiet P (f a)) ->
  quiet P (bind m f).
Proof.
  intros Hm He Hf. induction Hm; simpl; auto; constructor; auto.
Qed.

Lemma quiet_lift {A} (r : Result A) : quiet (fun _ => True) (lift r).
Proof. destruct r; constructor; exact I. Qed.

Lemma quiet_await_keygen (a : HmacKeyGenParams) (e : bool) (u : list string) :
  quiet (fun _ => True) (await (GenerateKey a e u)).
Proof.
  constructor; [reflexivity|]. intros [name|k]; constructor; exact I.
Qed.

Lemma quiet_generateSecretKey (StringToNumber : JsString -> JsNumber)
  (options : JsValue) :
  quiet (fun _ => True) (generateSecretKey StringToNumber options).
Proof.
  unfold generateSecretKey.
  repeat (apply quiet_bind; [apply quiet_lift | exact (fun _ => I) | intros]).
  apply quiet_bind;
    [| exact (fun _ => I) | intros; apply quiet_await_keygen].
  destruct (truthy _); [|constructor; exact I].
  apply quiet_bind;
    [apply quiet_lift | exact (fun _ => I) | intros; constructor; exact I].
Qed.

Lemma run_quiet S (subtleCrypto : SubtleCrypto S) {A} (P : Result A -> Prop)
  (m : Async A) :
  quiet P m ->
  forall w : World S,
    P (fst (run subtleCrypto m w))
    /\ exists cs,
         w_calls (snd (run subtleCrypto m w)) = w_calls w ++ cs
         /\ existsb is_hmac_work cs = false.
Proof.
  induction 1 as [a Ha|e He|c k Hc _ IH]; intros w; simpl.
  - split; [assumption|]. exists []. split; [symmetry; apply app_nil_r|reflexivity].
  - split; [assumption|]. exists []. split; [symmetry; apply app_nil_r|reflexivity].
  - destruct (perform subtleCrypto c (w_state w)) as [o s'].
    destruct (IH o {| w_state := s'; w_calls := w_calls w ++ [c] |})
      as (HP & cs & E & Hcs).
    split; [assumption|]. exists (c :: cs). split.
    + rewrite E. simpl. rewrite <- app_assoc. reflexivity.
    + simpl. rewrite Hc, Hcs. reflexivity.
Qed.


Lemma comparison_short_circuit (secretKey left right hmacAlgorithm : JsValue)
  (l r : list byte) :
  validateValueOrConvertToUint8Array left = Ok l ->
  validateValueOrConvertToUint8Array right = Ok r ->
  length l <> length r \/ length l = 0%nat \/ length r = 0%nat ->
  comparison secretKey left right hmacAlgorithm = Ret false.
Proof.
  intros El Er H. unfold comparison. rewrite El, Er. simpl.
  destruct (Nat.eqb_spec (length l) (length r)) as [E|N]; simpl.
  - destruct (Nat.eqb_spec (length l) 0) as [E0|N0]; [reflexivity|].
    exfalso. destruct H as [H|[H|H]]; congruence.
  - reflexivity.
Qed.

Section ComparatorRuns.

Variable StringToNumber : JsString -> JsNumber.
Variable S : Type.
Variable subtleCrypto : SubtleCrypto S.

Lemma compare_quiet (P : Result bool -> Prop) (left right options : JsValue) :
  (forall e, P (Err e)) ->
  (forall secretKey hmacAlgorithm,
      quiet P (comparison secretKey left right hmacAlgorithm)) ->
  quiet P (webTimingSafeEqual StringToNumber left right options).
Proof.
  intros He Hc.
  unfold webTimingSafeEqual. set (o := or_default options empty_object).
  apply quiet_bind; [|assumption|intros _].
  { destruct (truthy (opt_get o "keyAlgorithm"));
      [apply quiet_lift | constructor; exact I]. }
  apply quiet_bind; [|assumption|intros _].
  { destruct (truthy (opt_get o "hmacAlgorithm"));
      [apply quiet_lift | constructor; exact I]. }
  apply quiet_bind; [|assumption|intros secretKey; apply Hc].
  destruct (truthy (opt_get o "secretKey")); [constructor; exact I|].
  repeat (apply quiet_bind; [apply quiet_lift | exact (fun _ => I) | intros]).
  apply quiet_bind;
    [apply quiet_generateSecretKey | exact (fun _ => I) | intros].
  constructor; exact I.
Qed.


(** C3.  When the coerced byte sequences differ in length, or one of them
    is empty, the call never imports a key or signs -- no HMAC is computed
    -- and it never returns [true].  With options typed as documented it
    returns [false]: at once when a truthy [options.secretKey] is given,
    and after the one key generation otherwise (whose rejection, if the
    provider rejects, is the outcome). *)
Theorem compare_short_circuits (left right options : JsValue)
  (l r : list byte) (w : World S) :
  validateValueOrConvertToUint8Array left = Ok l ->
  validateValueOrConvertToUint8Array right = Ok r ->
  length l <> length r \/ length l = 0%nat \/ length r = 0%nat ->
  let out := run subtleCrypto
               (webTimingSafeEqual StringToNumber left right options) w in
  (fst out <> Ok true
   /\ exists cs,
       w_calls (snd out) = w_calls w ++ cs /\ existsb is_hmac_work cs = false)
  /\ (valid_options options ->
      truthy (opt_get options "secretKey") = true ->
      out = (Ok false, w))
  /\ (valid_options options ->
      truthy (opt_get options "secretKey") = false ->
      w_calls (snd out) = w_calls w ++ [default_keygen]
      /\ fst out =
         match fst (perform subtleCrypto default_keygen (w_state w)) with
         | inl name => Err (ProviderFailure name)
         | inr _ => Ok false
         end)
  /\ (valid_options options ->
      conforming subtleCrypto ->
      fst out = Ok false).
Proof.
  intros El Er Hlen out.
  assert (Hsupplied : valid_options options ->
                      truthy (opt_get options "secretKey") = true ->
                      out = (Ok false, w)).
  { intros Hv Hsk. unfold out.
    rewrite (compare_with_supplied_key StringToNumber _ _ Hv Hsk).
    rewrite (comparison_short_circuit _ _ _ _ El Er Hlen). reflexivity. }
  assert (Hgenerated : valid_options options ->
            truthy (opt_get options "secretKey") = false ->
            w_calls (snd out) = w_calls w ++ [default_keygen]
            /\ fst out =
               match fst (perform subtleCrypto default_keygen (w_state w)) with
               | inl name => Err (ProviderFailure name)
               | inr _ => Ok false
               end).
  { intros Hv Hsk. unfold out.
    rewrite (run_same subtleCrypto
               (compare_with_generated_key StringToNumber left right Hv Hsk)).
    simpl.
    destruct (sc_generateKey subtleCrypto _ _ _ (w_state w)) as [[name|k] s'];
      simpl.
    - split; reflexivity.
    - rewrite (comparison_short_circuit _ _ _ _ El Er Hlen). simpl.
      split; reflexivity. }
  split; [|split; [|split]]; try assumption.
  - apply (run_quiet subtleCrypto (P := fun x => x <> Ok true)).
    apply compare_quiet.
    + intros e. discriminate.
    + intros secretKey hmacAlgorithm.
      rewrite (comparison_short_circuit _ _ _ _ El Er Hlen).
      constructor. discriminate.
  - intros Hv Hc.
    destruct (truthy (opt_get options "secretKey")) eqn:Hsk.
    + rewrite (Hsupplied Hv eq_refl). reflexivity.
    + destruct (Hgenerated Hv eq_refl) as [_ ->].
      destruct (@cf_generate _ _ Hc (JString (str "SHA-256")) SHA256
                  true (w_state w) eq_refl) as (k & s' & Ek).
      simpl. rewrite Ek. reflexivity.
Qed.

End ComparatorRuns.

(* ------------------------------------------------------------------ *)
(** ** The small provider keeps the contract *)

Lemma toy_conforming : conforming Toy.subtle.
Proof.
  constructor.
  - split.
    + intros f d a e u s1 s2. simpl. unfold Toy.importKey.
      destruct d; try reflexivity.
      destruct bytes; destruct (hash_of_value (ki_hash a)); reflexivity.
    + intros a k d s1 s2. simpl. unfold Toy.sign.
      destruct k; try reflexivity.
      destruct (existsb (String.eqb "sign") (ck_usages k)); reflexivity.
  - intros v h e s Hh. simpl. unfold Toy.generateKey. simpl. rewrite Hh.
    eexists; eexists; reflexivity.
  - intros v h len e u s k Hh. simpl. unfold Toy.generateKey. simpl.
    rewrite Hh.
    destruct len as [[z| |negative]|]; try discriminate.
    + destruct (0 <? z)%Z; [|discriminate].
      simpl. intros E. injection E as <-. split; reflexivity.
    + simpl. intros E. injection E as <-. split; reflexivity.
  - intros b bs v h s Hh. simpl. unfold Toy.importKey. simpl.
    rewrite Hh. eexists; reflexivity.
  - intros d v h e u s k Hh. simpl. unfold Toy.importKey. simpl.
    rewrite Hh. destruct d; try discriminate.
    destruct bytes; try discriminate. simpl.
    intros E. injection E as <-. split; reflexivity.
  - intros k d s Hin. unfold Toy.subtle, sc_sign, Toy.sign.
    assert (E : existsb (String.eqb "sign") (ck_usages k) = true).
    { apply existsb_exists. exists "sign"%string.
      split; [assumption|apply String.eqb_refl]. }
    rewrite E. eexists. split; [reflexivity|].
    unfold Toy.mac. rewrite length_map, length_seq. reflexivity.
Qed.

Lemma valid_options_undefined : valid_options JUndefined.
Proof.
  split; [discriminate|].
  split; [left; reflexivity|].
  split; [left; reflexivity|left; reflexivity].
Qed.

(* ------------------------------------------------------------------ *)
(** ** Evaluations of the comparator *)

(** C1.  [webTimingSafeEqual("a", "a", {keyLength: 32, keyAlgorithm:
    "SHA-512"})] on the small provider: the key is generated for SHA-256
    with 512 bits, the defaults of [generateSecretKey], and not for
    SHA-512 with 256 bits as the options ask; the two signatures are made
    under that key. *)
Theorem compare_generates_default_key :
  let options :=
    object [("keyLength"%string, JNumber (Int 32));
            ("keyAlgorithm"%string, JString (str "SHA-512"))] in
  let key :=
    {| ck_hash := SHA256; ck_length := 512; ck_extractable := true;
       ck_usages := ["sign"%string]; ck_material := repeat x00 64 |} in
  Toy.compare (JString (str "a")) (JString (str "a")) options
  = (Ok true,
     [GenerateKey {| kg_name := "HMAC"; kg_hash := JString (str "SHA-256");
                     kg_length := Some (Int 512) |} true ["sign"%string];
      Sign "HMAC" (JCryptoKey key) [x61];
      Sign "HMAC" (JCryptoKey key) [x61]])
  /\ generateSecretKey Toy.StringToNumber
       (object_of_spreads (JString (str "SHA-512")) (JNumber (Int 32)))
     = await default_keygen
  /\ generateSecretKey Toy.StringToNumber
       (object [("keyLength"%string, JNumber (Int 32));
                ("algorithm"%string, JString (str "SHA-512"))])
     = await (GenerateKey {| kg_name := "HMAC";
                             kg_hash := JString (str "SHA-512");
                             kg_length := Some (Int 256) |}
                true ["sign"%string]).
Proof.
  split; [vm_compute; reflexivity|].
  split; reflexivity.
Qed.



(** C3 on [webTimingSafeEqual("", "")] and on
    [webTimingSafeEqual([1,2,3], [1,2])] with the key ["k"]. *)
Lemma compare_short_circuits_witness :
  let w := {| w_state := 0; w_calls := [] |} in
  fst (run Toy.subtle
         (webTimingSafeEqual Toy.StringToNumber (JString (str ""))
            (JString (str "")) JUndefined) w)
  = Ok false
  /\ run Toy.subtle
       (webTimingSafeEqual Toy.StringToNumber (JUint8Array [x01; x02; x03])
          (JUint8Array [x01; x02])
          (object [("secretKey"%string, JString (str "k"))])) w
     = (Ok false, w).
Proof.
  intros w. split.
  - exact (proj2 (proj2 (proj2
             (@compare_short_circuits Toy.StringToNumber N Toy.subtle
                (JString (str "")) (JString (str "")) JUndefined [] [] w
                eq_refl eq_refl (or_intror (or_introl eq_refl)))))
             valid_options_undefined toy_conforming).
  - assert (L : length [x01; x02; x03] <> length [x01; x02]) by discriminate.
    apply (proj1 (proj2
             (@compare_short_circuits Toy.StringToNumber N Toy.subtle
                (JUint8Array [x01; x02; x03]) (JUint8Array [x01; x02])
                (object [("secretKey"%string, JString (str "k"))])
                [x01; x02; x03] [x01; x02] w
                eq_refl eq_refl (or_introl L)))).
    + split; [discriminate|].
      split; [left; reflexivity|].
      split; [left; reflexivity|left; reflexivity].
    + reflexivity.
Defined.

(* ------------------------------------------------------------------ *)
(** ** A falsy [secretKey] *)

Lemma lookup_without_same (name : string) (ps : Props) :
  lookup name (without name ps) = JUndefined.
Proof.
  induction ps as [|[n v] ps IH]; simpl; [reflexivity|].
  destruct (String.eqb n name) eqn:E; simpl; [assumption|].
  rewrite E. assumption.
Qed.

Lemma lookup_without_other (name other : string) (ps : Props) :
  String.eqb other name = false ->
  lookup name (without other ps) = lookup name ps.
Proof.
  intros Hne. induction ps as [|[n v] ps IH]; simpl; [reflexivity|].
  destruct (String.eqb n other) eqn:E; simpl.
  - apply String.eqb_eq in E. subst n. rewrite Hne. assumption.
  - rewrite IH. reflexivity.
Qed.

(** C9.  For an options object whose [secretKey] is falsy (the empty
    string, 0, [null], [false], NaN or [undefined]):
    the call is the very computation it is on the same options with
    [secretKey] removed, and with options typed as documented it first
    generates a key and hands that key -- not the supplied value -- to
    both HMAC computations.  A truthy [secretKey] is handed to the HMAC
    computations as it is, and no key is generated. *)
Theorem falsy_secretKey_is_absent (StringToNumber : JsString -> JsNumber)
  (left right : JsValue) (ctor : option string) (ps : Props) :
  let options := JObject ctor ps in
  (truthy (lookup "secretKey" ps) = false ->
   webTimingSafeEqual StringToNumber left right options
   = webTimingSafeEqual StringToNumber left right
       (JObject ctor (without "secretKey" ps))
   /\ (valid_options options ->
       same (webTimingSafeEqual StringToNumber left right options)
         (k <- await default_keygen ;;
          comparison (JCryptoKey k) left right (hmacAlgorithm_of options))))
  /\ (truthy (lookup "secretKey" ps) = true ->
      valid_options options ->
      webTimingSafeEqual StringToNumber left right options
      = comparison (lookup "secretKey" ps) left right
          (hmacAlgorithm_of options)).
Proof.
  intros options. split.
  - intros Hf. split.
    + unfold webTimingSafeEqual, options. simpl.
      rewrite lookup_without_same.
      rewrite !(@lookup_without_other _ "secretKey") by reflexivity.
      rewrite Hf. reflexivity.
    + intros Hv. apply compare_with_generated_key; assumption.
  - intros Ht Hv.
    exact (compare_with_supplied_key StringToNumber left right Hv Ht).
Qed.

(** C9 on [{secretKey: ""}] and on [{secretKey: "k"}]. *)
Lemma falsy_secretKey_is_absent_witness :
  let empty := [("secretKey"%string, JString (str ""))] in
  let given := [("secretKey"%string, JString (str "k"))] in
  (webTimingSafeEqual Toy.StringToNumber (JString (str "a"))
     (JString (str "a")) (object empty)
   = webTimingSafeEqual Toy.StringToNumber (JString (str "a"))
       (JString (str "a")) (object [])
   /\ same (webTimingSafeEqual Toy.StringToNumber (JString (str "a"))
              (JString (str "a")) (object empty))
        (k <- await default_keygen ;;
         comparison (JCryptoKey k) (JString (str "a")) (JString (str "a"))
           JUndefined))
  /\ webTimingSafeEqual Toy.StringToNumber (JString (str "a"))
       (JString (str "a")) (object given)
     = comparison (JString (str "k")) (JString (str "a")) (JString (str "a"))
         JUndefined.
Proof.
  intros empty given.
  assert (Hv : forall ps,
             lookup "keyAlgorithm" ps = JUndefined ->
             lookup "hmacAlgorithm" ps = JUndefined ->
             lookup "keyLength" ps = JUndefined ->
             valid_options (object ps)).
  { intros ps H1 H2 H3. split; [discriminate|]. simpl. rewrite H1, H2, H3.
    split; [left; reflexivity|].
    split; [left; reflexivity|left; reflexivity]. }
  split.
  - destruct (proj1 (falsy_secretKey_is_absent Toy.StringToNumber
                       (JString (str "a")) (JString (str "a"))
                       (Some "Object"%string) empty) eq_refl) as [E1 E2].
    split; [exact E1|].
    exact (E2 (Hv empty eq_refl eq_refl eq_refl)).
  - exact (proj2 (falsy_secretKey_is_absent Toy.StringToNumber
                    (JString (str "a")) (JString (str "a"))
                    (Some "Object"%string) given) eq_refl
             (Hv given eq_refl eq_refl eq_refl)).
Defined.

(* ------------------------------------------------------------------ *)
(** ** The HMAC engine: shapes and the hex encoding *)

Lemma hmac_with_handle (key message algorithm : JsValue) (data : list byte) :
  supported (or_default algorithm (JString (str "SHA-256"))) ->
  validateValueOrConvertToUint8Array message = Ok data ->
  is_CryptoKey key = true ->
  hmac key message algorithm = sign_only key data.
Proof.
  intros Hs Hm Hk. unfold hmac.
  rewrite (validateAlgorithm_ok Hs), Hm, Hk. reflexivity.
Qed.

Lemma hmac_with_raw (key message algorithm : JsValue) (data raw : list byte) :
  supported (or_default algorithm (JString (str "SHA-256"))) ->
  validateValueOrConvertToUint8Array message = Ok data ->
  is_CryptoKey key = false ->
  validateValueOrConvertToUint8Array key = Ok raw ->
  same (hmac key message algorithm)
    (import_then_sign raw (or_default algorithm (JString (str "SHA-256")))
       data).
Proof.
  intros Hs Hm Hk Hr. unfold hmac.
  rewrite (validateAlgorithm_ok Hs), Hm, Hk, Hr. simpl.
  constructor. intros [name|k]; apply same_refl.
Qed.

(** [hmac] throws before any call, or has one of the two shapes. *)
Lemma hmac_shape (key message algorithm : JsValue) :
  let hash := or_default algorithm (JString (str "SHA-256")) in
  (exists e, hmac key message algorithm = Throw e)
  \/ (exists data,
        validateValueOrConvertToUint8Array message = Ok data
        /\ is_CryptoKey key = true
        /\ hmac key message algorithm = sign_only key data)
  \/ (exists data raw,
        validateValueOrConvertToUint8Array message = Ok data
        /\ is_CryptoKey key = false
        /\ supported hash
        /\ same (hmac key message algorithm) (import_then_sign raw hash data)).
Proof.
  intros hash.
  destruct (supported_dec hash) as [Hs|Hn].
  2:{ left. unfold hmac. fold hash. rewrite (validateAlgorithm_err Hn).
      eexists; reflexivity. }
  destruct (validateValueOrConvertToUint8Array message) as [e|data] eqn:Hm.
  { left. unfold hmac. fold hash. rewrite (validateAlgorithm_ok Hs), Hm.
    eexists; reflexivity. }
  destruct (is_CryptoKey key) eqn:Hk.
  { right; left. exists data. repeat split.
    apply hmac_with_handle; assumption. }
  destruct (validateValueOrConvertToUint8Array key) as [e|raw] eqn:Hr.
  { left. unfold hmac. fold hash. rewrite (validateAlgorithm_ok Hs), Hm, Hk, Hr.
    eexists; reflexivity. }
  right; right. exists data, raw. repeat split; try assumption.
  apply hmac_with_raw; assumption.
Qed.

Lemma hex_byte_length (b : byte) : length (padStart 2 48 (toString16 b)) = 2%nat.
Proof. destruct b; reflexivity. Qed.

Lemma hex_byte_lower (b : byte) :
  forallb is_lower_hex (padStart 2 48 (toString16 b)) = true.
Proof. destruct b; reflexivity. Qed.

Lemma hex_of_bytes_length (bytes : list byte) :
  length (hex_of_bytes bytes) = (2 * length bytes)%nat.
Proof.
  unfold hex_of_bytes. induction bytes as [|b bytes IH]; [reflexivity|].
  cbn [map concat]. rewrite length_app, hex_byte_length, IH. simpl. lia.
Qed.

Lemma hex_of_bytes_lower (bytes : list byte) :
  forallb is_lower_hex (hex_of_bytes bytes) = true.
Proof.
  unfold hex_of_bytes. induction bytes as [|b bytes IH]; [reflexivity|].
  cbn [map concat]. rewrite forallb_app, hex_byte_lower, IH. reflexivity.
Qed.

Lemma supported_hash (v : JsValue) :
  supported v -> exists h, hash_of_value v = Some h.
Proof. intros [E|[E|[E|E]]]; subst; eexists; reflexivity. Qed.

Lemma encode_nonempty (s : JsString) : s <> [] -> TextEncoder_encode s <> [].
Proof.
  destruct s as [|c rest]; [congruence|]. intros _.
  cbn [TextEncoder_encode].
  unfold utf8_1, utf8_2, utf8_3, utf8_4, replacement_bytes.
  destruct (c <? 128); [cbn [app]; congruence|].
  destruct (c <? 2048); [cbn [app]; congruence|].
  destruct (is_high_surrogate c).
  - destruct rest as [|lo rest']; [congruence|].
    destruct (is_low_surrogate lo); cbn [app]; congruence.
  - destruct (is_low_surrogate c); cbn [app]; congruence.
Qed.

Section HmacRuns.

Variable S : Type.
Variable subtleCrypto : SubtleCrypto S.

Lemma run_sign_only (key : JsValue) (data : list byte) (w : World S) :
  run subtleCrypto (sign_only key data) w =
  (match fst (sc_sign subtleCrypto "HMAC" key data (w_state w)) with
   | inl name => Err (ProviderFailure name)
   | inr signature => Ok (hex_of_bytes signature)
   end,
   {| w_state := snd (sc_sign subtleCrypto "HMAC" key data (w_state w));
      w_calls := w_calls w ++ [Sign "HMAC" key data] |}).
Proof.
  unfold sign_only. simpl.
  destruct (sc_sign subtleCrypto "HMAC" key data (w_state w)) as [[n|sg] s'];
    reflexivity.
Qed.

Lemma run_import_then_sign (raw : list byte) (hash : JsValue)
  (data : list byte) (w : World S) :
  let c := ImportKey "raw" (JUint8Array raw)
             {| ki_name := "HMAC"; ki_hash := hash |} false ["sign"%string] in
  let o := sc_importKey subtleCrypto "raw" (JUint8Array raw)
             {| ki_name := "HMAC"; ki_hash := hash |} false ["sign"%string]
             (w_state w) in
  let w1 := {| w_state := snd o; w_calls := w_calls w ++ [c] |} in
  run subtleCrypto (import_then_sign raw hash data) w =
  match fst o with
  | inl name => (Err (ProviderFailure name), w1)
  | inr k => run subtleCrypto (sign_only (JCryptoKey k) data) w1
  end.
Proof.
  intros c o w1. unfold import_then_sign, w1, o, c. simpl.
  destruct (sc_importKey subtleCrypto _ _ _ _ _ (w_state w)) as [[n|k] s'];
    reflexivity.
Qed.

Lemma result_import_then_sign (raw : list byte) (hash : JsValue)
  (data : list byte) (w : World S) :
  fst (run subtleCrypto (import_then_sign raw hash data) w) =
  match fst (sc_importKey subtleCrypto "raw" (JUint8Array raw)
               {| ki_name := "HMAC"; ki_hash := hash |} false ["sign"%string]
               (w_state w)) with
  | inl name => Err (ProviderFailure name)
  | inr k =>
      match fst (sc_sign subtleCrypto "HMAC" (JCryptoKey k) data
                   (snd (sc_importKey subtleCrypto "raw" (JUint8Array raw)
                           {| ki_name := "HMAC"; ki_hash := hash |}
                           false ["sign"%string] (w_state w)))) with
      | inl name => Err (ProviderFailure name)
      | inr signature => Ok (hex_of_bytes signature)
      end
  end.
Proof.
  rewrite run_import_then_sign. cbv zeta.
  destruct (fst (sc_importKey subtleCrypto _ _ _ _ _ (w_state w))) as [n|k];
    [reflexivity|].
  rewrite run_sign_only. reflexivity.
Qed.

(** C8.  With a provider whose import and signature do not depend on its
    state, [hmac] is deterministic: two calls with the same key, message
    and algorithm give the same outcome -- the same hex string -- whatever
    the provider's state and the calls made before. *)
Theorem hmac_deterministic (key message algorithm : JsValue) (w1 w2 : World S) :
  deterministic subtleCrypto ->
  fst (run subtleCrypto (hmac key message algorithm) w1)
  = fst (run subtleCrypto (hmac key message algorithm) w2).
Proof.
  intros [Himport Hsign].
  destruct (hmac_shape key message algorithm)
    as [[e E]|[(data & Hm & Hk & E)|(data & raw & Hm & Hk & Hs & E)]].
  - rewrite E. reflexivity.
  - rewrite E, !run_sign_only. cbn [fst].
    rewrite (Hsign _ _ _ (w_state w1) (w_state w2)). reflexivity.
  - rewrite !(run_same subtleCrypto E), !result_import_then_sign.
    rewrite (Himport _ _ _ _ _ (w_state w1) (w_state w2)).
    generalize (snd (sc_importKey subtleCrypto "raw" (JUint8Array raw)
                       {| ki_name := "HMAC";
                          ki_hash := or_default algorithm
                                       (JString (str "SHA-256")) |}
                       false ["sign"%string] (w_state w1))).
    generalize (snd (sc_importKey subtleCrypto "raw" (JUint8Array raw)
                       {| ki_name := "HMAC";
                          ki_hash := or_default algorithm
                                       (JString (str "SHA-256")) |}
                       false ["sign"%string] (w_state w2))).
    intros s2 s1.
    destruct (fst (sc_importKey subtleCrypto _ _ _ _ _ (w_state w2))) as [n|k];
      [reflexivity|].
    rewrite (Hsign _ _ _ s1 s2). reflexivity.
Qed.

End HmacRuns.

(** C8 on the small provider: the HMAC of ["m"] under the key ["k"] from
    two different states of the provider. *)
Lemma hmac_deterministic_witness :
  fst (run Toy.subtle (hmac (JString (str "k")) (JString (str "m")) JUndefined)
         {| w_state := 0; w_calls := [] |})
  = fst (run Toy.subtle (hmac (JString (str "k")) (JString (str "m")) JUndefined)
           {| w_state := 7; w_calls := [default_keygen] |}).
Proof.
  apply hmac_deterministic. exact (cf_deterministic toy_conforming).
Defined.

(* ------------------------------------------------------------------ *)
(** ** The hex digest *)

Section HexDigest.

Variable S : Type.
Variable subtleCrypto : SubtleCrypto S.

(** C7, as the code has it.  Whenever [hmac] returns a string, the string
    is the hex encoding of the bytes the provider's last call, the
    signature over the coerced message, answered with: two lowercase hex
    digits for every byte.  Its length is twice the number of signature
    bytes, so with a conforming provider it is twice the digest size of
    the hash the signing key is bound to, whatever the message: for text
    or bytes given as key that is the algorithm of the call, for a key
    handle it is the hash of the handle, not the algorithm of the call. *)
Theorem hmac_hex_digest (key message algorithm : JsValue) (w : World S)
  (hex : JsString) :
  let out := run subtleCrypto (hmac key message algorithm) w in
  fst out = Ok hex ->
  (exists signKey data s signature cs,
      validateValueOrConvertToUint8Array message = Ok data
      /\ w_calls (snd out) = w_calls w ++ cs ++ [Sign "HMAC" signKey data]
      /\ fst (sc_sign subtleCrypto "HMAC" signKey data s) = inr signature
      /\ hex = hex_of_bytes signature
      /\ length hex = (2 * length signature)%nat)
  /\ forallb is_lower_hex hex = true
  /\ (conforming subtleCrypto ->
      (forall k, key = JCryptoKey k -> In "sign"%string (ck_usages k) ->
                 length hex = (2 * digest_bytes (ck_hash k))%nat)
      /\ (is_CryptoKey key = false ->
          forall h,
            hash_of_value (or_default algorithm (JString (str "SHA-256")))
            = Some h ->
            length hex = (2 * digest_bytes h)%nat)).
Proof.
  intros out. unfold out.
  destruct (hmac_shape key message algorithm)
    as [[e E]|[(data & Hm & Hk & E)|(data & raw & Hm & Hk & Hs & E)]].
  - rewrite E. discriminate.
  - rewrite E, run_sign_only. cbn [fst snd w_calls].
    destruct (fst (sc_sign subtleCrypto "HMAC" key data (w_state w)))
      as [n|sg] eqn:Es; [discriminate|].
    intros Hhex. injection Hhex as <-.
    split; [|split].
    + exists key, data, (w_state w), sg, [].
      repeat split; try assumption. apply hex_of_bytes_length.
    + apply hex_of_bytes_lower.
    + intros Hc. split.
      * intros k -> Hin.
        destruct (cf_sign Hc k data (w_state w) Hin) as (sg' & Es' & Hlen).
        rewrite Es in Es'. injection Es' as <-.
        rewrite hex_of_bytes_length, Hlen. reflexivity.
      * congruence.
  - rewrite (run_same subtleCrypto E), run_import_then_sign. cbv zeta.
    set (o := sc_importKey subtleCrypto "raw" (JUint8Array raw)
                {| ki_name := "HMAC";
                   ki_hash := or_default algorithm (JString (str "SHA-256")) |}
                false ["sign"%string] (w_state w)).
    destruct (fst o) as [n|k] eqn:Ei; [discriminate|].
    rewrite run_sign_only. cbn [fst snd w_calls w_state].
    destruct (fst (sc_sign subtleCrypto "HMAC" (JCryptoKey k) data (snd o)))
      as [n|sg] eqn:Es; [discriminate|].
    intros Hhex. injection Hhex as <-.
    split; [|split].
    + exists (JCryptoKey k), data, (snd o), sg,
        [ImportKey "raw" (JUint8Array raw)
           {| ki_name := "HMAC";
              ki_hash := or_default algorithm (JString (str "SHA-256")) |}
           false ["sign"%string]].
      repeat split; try assumption.
      * rewrite <- app_assoc. reflexivity.
      * apply hex_of_bytes_length.
    + apply hex_of_bytes_lower.
    + intros Hc. split.
      * intros k0 -> _. discriminate Hk.
      * intros _ h Hh.
        destruct (cf_import_bound Hc _ _ _ _ _ Hh Ei) as [Ehash Eusages].
        assert (Hin : In "sign"%string (ck_usages k))
          by (rewrite Eusages; left; reflexivity).
        destruct (cf_sign Hc k data (snd o) Hin) as (sg' & Es' & Hlen).
        rewrite Es in Es'. injection Es' as <-.
        rewrite hex_of_bytes_length, Hlen, Ehash. reflexivity.
Qed.

End HexDigest.

(** Against C7 in its first form, for a key handle: under the key that
    [generateSecretKey({algorithm: "SHA-512"})] returns, the HMAC for the
    algorithm SHA-256 has the 128 hex digits of SHA-512, not 64; the
    provider is a conforming one. *)
Lemma hmac_length_follows_key_handle :
  conforming Toy.subtle
  /\ fst (exec Toy.subtle
            (generateSecretKey Toy.StringToNumber
               (object [("algorithm"%string, JString (str "SHA-512"))])) 0)
     = Ok sample_key512
  /\ exists hex,
       fst (exec Toy.subtle
              (hmac (JCryptoKey sample_key512) (JString (str "a"))
                 (JString (str "SHA-256"))) 1)
       = Ok hex
       /\ length hex = 128%nat
       /\ length hex <> (2 * digest_bytes SHA256)%nat.
Proof.
  split; [exact toy_conforming|]. split; [reflexivity|].
  eexists. split; [vm_compute; reflexivity|].
  split; [reflexivity|discriminate].
Qed.

(** C7 on the small provider: the HMAC of ["m"] under the text key ["k"]
    for SHA-256 and for SHA-512 has 64 and 128 hex digits. *)
Lemma hmac_hex_digest_witness :
  let w := {| w_state := 0; w_calls := [] |} in
  (exists hex,
      fst (run Toy.subtle
             (hmac (JString (str "k")) (JString (str "m"))
                (JString (str "SHA-256"))) w) = Ok hex
      /\ length hex = 64%nat)
  /\ (exists hex,
      fst (run Toy.subtle
             (hmac (JString (str "k")) (JString (str "m"))
                (JString (str "SHA-512"))) w) = Ok hex
      /\ length hex = 128%nat).
Proof.
  intros w. split.
  - assert (H : exists hex,
               fst (run Toy.subtle
                      (hmac (JString (str "k")) (JString (str "m"))
                         (JString (str "SHA-256"))) w) = Ok hex)
      by (eexists; vm_compute; reflexivity).
    destruct H as [hex H]. exists hex. split; [exact H|].
    exact (proj2 (proj2 (proj2 (hmac_hex_digest Toy.subtle _ _ _ _ H))
                    toy_conforming) eq_refl SHA256 eq_refl).
  - assert (H : exists hex,
               fst (run Toy.subtle
                      (hmac (JString (str "k")) (JString (str "m"))
                         (JString (str "SHA-512"))) w) = Ok hex)
      by (eexists; vm_compute; reflexivity).
    destruct H as [hex H]. exists hex. split; [exact H|].
    exact (proj2 (proj2 (proj2 (hmac_hex_digest Toy.subtle _ _ _ _ H))
                    toy_conforming) eq_refl SHA512 eq_refl).
Defined.

(* ------------------------------------------------------------------ *)
(** ** Equal inputs *)

Lemma hmacAlgorithm_supported (options : JsValue) :
  valid_options options ->
  supported (or_default (hmacAlgorithm_of options) (JString (str "SHA-256"))).
Proof.
  intros (_ & _ & Hha & _). unfold hmacAlgorithm_of.
  destruct (truthy (opt_get options "hmacAlgorithm")) eqn:E.
  - destruct Hha as [Hf|Hs]; [congruence|].
    assert (E' : js_get options "hmacAlgorithm" = opt_get options "hmacAlgorithm")
      by (destruct options; simpl in *; try discriminate; reflexivity).
    rewrite E'. destruct Hs as [H|[H|[H|H]]]; rewrite H; simpl.
    + left; reflexivity.
    + right; left; reflexivity.
    + right; right; left; reflexivity.
    + right; right; right; reflexivity.
  - right; left; reflexivity.
Qed.

Lemma nonempty_input_bytes (a : JsValue) :
  nonempty_input a ->
  exists b bs, validateValueOrConvertToUint8Array a = Ok (b :: bs).
Proof.
  intros [(bytes & -> & Hne)|(s & [->| ->] & Hne)]; simpl.
  - destruct bytes as [|b bs]; [congruence|]. eauto.
  - apply encode_nonempty in Hne.
    destruct (TextEncoder_encode s) as [|b bs]; [congruence|]. eauto.
  - apply encode_nonempty in Hne.
    destruct (TextEncoder_encode s) as [|b bs]; [congruence|]. eauto.
Qed.

Lemma import_calls_shape (key algorithm : JsValue) :
  import_calls key algorithm = []
  \/ exists c, import_calls key algorithm = [c] /\ is_CryptoKey key = false.
Proof.
  unfold import_calls. destruct (is_CryptoKey key); [left; reflexivity|].
  destruct (validateValueOrConvertToUint8Array key) as [e|raw];
    [left; reflexivity|].
  right. eexists. split; reflexivity.
Qed.

Section ComparisonRuns.

Variable StringToNumber : JsString -> JsNumber.
Variable S : Type.
Variable subtleCrypto : SubtleCrypto S.

Lemma yields_sign_only (key : JsValue) (data : list byte)
  (o : string + list byte) :
  (forall s, fst (sc_sign subtleCrypto "HMAC" key data s) = o) ->
  yields subtleCrypto (sign_only key data)
    (match o with
     | inl name => Err (ProviderFailure name)
     | inr signature => Ok (hex_of_bytes signature)
     end)
    [Sign "HMAC" key data].
Proof.
  intros Ho. unfold sign_only, await. cbn [bind].
  apply (@yields_await S subtleCrypto _ (Sign "HMAC" key data) _ o);
    [exact Ho|].
  destruct o; constructor.
Qed.

(** [hmac] under a key that signs as [k]: the import, if the key is no
    handle, and the signature, which is the outcome. *)
Lemma yields_hmac (key message algorithm : JsValue) (data : list byte)
  (k : CryptoKey) (o : string + list byte) :
  supported (or_default algorithm (JString (str "SHA-256"))) ->
  validateValueOrConvertToUint8Array message = Ok data ->
  signing_key subtleCrypto key algorithm k ->
  (forall s, fst (sc_sign subtleCrypto "HMAC" (JCryptoKey k) data s) = o) ->
  yields subtleCrypto (hmac key message algorithm)
    (match o with
     | inl name => Err (ProviderFailure name)
     | inr signature => Ok (hex_of_bytes signature)
     end)
    (import_calls key algorithm ++ [Sign "HMAC" (JCryptoKey k) data]).
Proof.
  intros Hs Hm [->|(Hk & raw & Hraw & Hi)] Ho.
  - rewrite (hmac_with_handle (JCryptoKey k) message algorithm Hs Hm eq_refl).
    apply yields_sign_only. exact Ho.
  - unfold import_calls. rewrite Hk, Hraw. cbn [app].
    unfold hmac. rewrite (validateAlgorithm_ok Hs), Hm, Hk, Hraw.
    cbn [negb lift bind Ok await].
    apply (@yields_await S subtleCrypto _
             (ImportKey "raw" (JUint8Array raw)
                {| ki_name := "HMAC";
                   ki_hash := or_default algorithm (JString (str "SHA-256")) |}
                false ["sign"%string]) _ (inr k)); [exact Hi|].
    exact (yields_sign_only (JCryptoKey k) data Ho).
Qed.

Hypothesis contract : conforming subtleCrypto.

(** Under a key that may sign, the signature of given bytes is one and the
    same in every state of the provider. *)
Lemma sign_total (k : CryptoKey) (d : list byte) (s0 : S) :
  In "sign"%string (ck_usages k) ->
  exists sg,
    (forall s, fst (sc_sign subtleCrypto "HMAC" (JCryptoKey k) d s) = inr sg)
    /\ length sg = digest_bytes (ck_hash k).
Proof.
  intros Hin. destruct (cf_sign contract k d s0 Hin) as (sg & E & Hlen).
  exists sg. split; [|assumption]. intros s.
  rewrite (proj2 (cf_deterministic contract) _ _ _ s s0). exact E.
Qed.

Lemma usable_signing_key (key algorithm : JsValue) (s0 : S) :
  usable_key key ->
  supported (or_default algorithm (JString (str "SHA-256"))) ->
  exists k,
    signing_key subtleCrypto key algorithm k /\ In "sign"%string (ck_usages k).
Proof.
  intros Hkey Hs. destruct (supported_hash Hs) as [h Hh].
  assert (Hraw : forall b bs,
             is_CryptoKey key = false ->
             validateValueOrConvertToUint8Array key = Ok (b :: bs) ->
             exists k,
               signing_key subtleCrypto key algorithm k
               /\ In "sign"%string (ck_usages k)).
  { intros b bs Hk Hv.
    destruct (cf_import contract b bs _ s0 Hh) as [k Hi].
    destruct (cf_import_bound contract _ _ _ _ _ Hh Hi) as [_ Eusages].
    exists k. split; [|rewrite Eusages; left; reflexivity].
    right. split; [assumption|]. exists (b :: bs). split; [assumption|].
    intros s.
    rewrite (proj1 (cf_deterministic contract) _ _ _ _ _ s s0). exact Hi. }
  destruct Hkey as [(k & -> & Hin)|[(s & [->| ->] & Hne)|(raw & -> & Hne)]].
  - exists k. split; [left; reflexivity|assumption].
  - destruct (nonempty_input_bytes (a := JString s)) as (b & bs & Hv).
    { right. exists s. split; [left; reflexivity|assumption]. }
    exact (Hraw b bs eq_refl Hv).
  - destruct (nonempty_input_bytes (a := JStringObject s)) as (b & bs & Hv).
    { right. exists s. split; [right; reflexivity|assumption]. }
    exact (Hraw b bs eq_refl Hv).
  - destruct raw as [|b bs]; [congruence|].
    exact (Hraw b bs eq_refl eq_refl).
Qed.

(** The comparison on two sides of the same non-zero length: the outcome
    does not depend on the order in which the host settles the calls; the
    imports of the two [hmac] calls come first, and when there are
    imports the two signatures are asked for in either order. *)
Lemma run_comparison (key left right algorithm : JsValue) (k : CryptoKey)
  (l r sl sr : list byte) (w : World S) :
  signing_key subtleCrypto key algorithm k ->
  supported (or_default algorithm (JString (str "SHA-256"))) ->
  (forall s, fst (sc_sign subtleCrypto "HMAC" (JCryptoKey k) l s) = inr sl) ->
  (forall s, fst (sc_sign subtleCrypto "HMAC" (JCryptoKey k) r s) = inr sr) ->
  validateValueOrConvertToUint8Array left = Ok l ->
  validateValueOrConvertToUint8Array right = Ok r ->
  length l = length r ->
  l <> [] ->
  exists s' cs,
    run subtleCrypto (comparison key left right algorithm) w
    = (Ok (jsstring_eqb (hex_of_bytes sl) (hex_of_bytes sr)),
       {| w_state := s';
          w_calls := w_calls w ++
                     (import_calls key algorithm ++ import_calls key algorithm)
                     ++ cs |})
    /\ (cs = [Sign "HMAC" (JCryptoKey k) l; Sign "HMAC" (JCryptoKey k) r]
        \/ (is_CryptoKey key = false
            /\ cs = [Sign "HMAC" (JCryptoKey k) r;
                     Sign "HMAC" (JCryptoKey k) l])).
Proof.
  intros Hkey Hs Hsl Hsr Hl Hr Hlen Hne. unfold comparison. rewrite Hl, Hr.
  cbn [lift bind Ok]. rewrite Hlen, Nat.eqb_refl.
  destruct r as [|b bs]; [destruct l; [congruence|discriminate]|].
  cbn [length Nat.eqb negb orb]. rewrite run_bind.
  pose proof (@yields_hmac key (JUint8Array l) algorithm l k (inr sl)
                Hs eq_refl Hkey Hsl) as Y1.
  pose proof (@yields_hmac key (JUint8Array (b :: bs)) algorithm (b :: bs) k
                (inr sr) Hs eq_refl Hkey Hsr) as Y2.
  destruct (run_all2 Y1 Y2 w) as (s' & cs & res & E & Hres & Hcs).
  rewrite E. cbv beta iota delta [race_outcome Ok] in Hres. subst res.
  unfold Ok.
  cbn [run fst snd]. exists s'.
  destruct (import_calls_shape key algorithm) as [Ei|(c & Ei & Hk)];
    rewrite Ei in Hcs |- *; cbn [app started] in Hcs;
    destruct Hcs as (zs & -> & Hzs).
  - inversion Hzs. eexists. split; [reflexivity|]. left; reflexivity.
  - destruct (interleaved_one_one Hzs) as [-> | ->].
    + eexists. split; [reflexivity|]. left; reflexivity.
    + eexists. split; [reflexivity|]. right. split; [assumption|reflexivity].
Qed.

(** How the call resolves its key: the comparison runs under [key], which
    signs as [k], from the world [w'] reached after the calls [pre]. *)
Lemma compare_resolves (options : JsValue) (w : World S) :
  valid_options options ->
  truthy (opt_get options "secretKey") = false
  \/ usable_key (opt_get options "secretKey") ->
  exists key k pre s',
    signing_key subtleCrypto key (hmacAlgorithm_of options) k
    /\ In "sign"%string (ck_usages k)
    /\ (truthy (opt_get options "secretKey") = true ->
        key = opt_get options "secretKey" /\ pre = [])
    /\ (truthy (opt_get options "secretKey") = false ->
        key = JCryptoKey k
        /\ fst (sc_generateKey subtleCrypto
                  {| kg_name := "HMAC"; kg_hash := JString (str "SHA-256");
                     kg_length := Some (Int 512) |}
                  true ["sign"%string] (w_state w)) = inr k
        /\ pre = [default_keygen])
    /\ forall left right,
        run subtleCrypto (webTimingSafeEqual StringToNumber left right options) w
        = run subtleCrypto
            (comparison key left right (hmacAlgorithm_of options))
            {| w_state := s'; w_calls := w_calls w ++ pre |}.
Proof.
  intros Hv Hkey. pose proof (hmacAlgorithm_supported Hv) as Hs.
  destruct (truthy (opt_get options "secretKey")) eqn:Hsk.
  - destruct Hkey as [Hf|Hu]; [discriminate|].
    destruct (@usable_signing_key _ _ (w_state w) Hu Hs) as (k & Hk & Hin).
    exists (opt_get options "secretKey"), k, [], (w_state w).
    split; [assumption|]. split; [assumption|].
    split; [intros _; split; reflexivity|]. split; [discriminate|].
    intros left right.
    rewrite (compare_with_supplied_key StringToNumber left right Hv Hsk).
    rewrite app_nil_r. destruct w; reflexivity.
  - destruct (@cf_generate _ _ contract (JString (str "SHA-256")) SHA256
                true (w_state w) eq_refl) as (k & s' & Ek).
    assert (Ek' : fst (sc_generateKey subtleCrypto
                         {| kg_name := "HMAC";
                            kg_hash := JString (str "SHA-256");
                            kg_length := Some (Int 512) |}
                         true ["sign"%string] (w_state w)) = inr k)
      by (rewrite Ek; reflexivity).
    destruct (@cf_generate_bound _ _ contract (JString (str "SHA-256")) SHA256
                _ _ _ _ _ eq_refl Ek') as [_ Eusages].
    exists (JCryptoKey k), k, [default_keygen], s'.
    split; [left; reflexivity|].
    split; [rewrite Eusages; left; reflexivity|].
    split; [discriminate|].
    split; [intros _; repeat split; assumption|].
    intros left right.
    rewrite (run_same subtleCrypto
               (compare_with_generated_key StringToNumber left right Hv Hsk)).
    rewrite run_bind, run_await. unfold default_keygen.
    cbn [perform]. rewrite Ek. reflexivity.
Qed.

(** C4.  With a conforming provider and options typed as documented --
    no key, or a key [hmac] can sign with -- the comparison of a
    non-empty byte sequence or text with itself returns [true]; so does
    the comparison of any two values that coerce to the same non-empty
    byte sequence.  On the way the key is resolved once, to the handle
    [k]: the handle given, the handle imported from the text or bytes
    given, or the handle the provider generates; after the calls that
    resolve it both [hmac] calls have the provider sign the bytes under
    [k], these two signatures end the log, and the digest of each side is
    the hex string of the provider's signature, the same for both. *)
Theorem compare_equal_inputs (options : JsValue) (w : World S) :
  valid_options options ->
  truthy (opt_get options "secretKey") = false
  \/ usable_key (opt_get options "secretKey") ->
  (forall a,
      nonempty_input a ->
      fst (run subtleCrypto (webTimingSafeEqual StringToNumber a a options) w)
      = Ok true)
  /\ (forall left right bytes,
      validateValueOrConvertToUint8Array left = Ok bytes ->
      validateValueOrConvertToUint8Array right = Ok bytes ->
      bytes <> [] ->
      let secretKey := opt_get options "secretKey" in
      let hmacAlgorithm := hmacAlgorithm_of options in
      let out := run subtleCrypto
                   (webTimingSafeEqual StringToNumber left right options) w in
      exists key k signature,
        (truthy secretKey = true ->
         key = secretKey
         /\ signing_key subtleCrypto secretKey hmacAlgorithm k)
        /\ (truthy secretKey = false ->
            key = JCryptoKey k
            /\ fst (sc_generateKey subtleCrypto
                      {| kg_name := "HMAC";
                         kg_hash := JString (str "SHA-256");
                         kg_length := Some (Int 512) |}
                      true ["sign"%string] (w_state w)) = inr k)
        /\ (forall s,
               fst (sc_sign subtleCrypto "HMAC" (JCryptoKey k) bytes s)
               = inr signature)
        /\ length signature = digest_bytes (ck_hash k)
        /\ (forall w',
               fst (run subtleCrypto
                      (hmac key (JUint8Array bytes) hmacAlgorithm) w')
               = Ok (hex_of_bytes signature))
        /\ w_calls (snd out)
           = w_calls w
             ++ (if truthy secretKey
                 then import_calls secretKey hmacAlgorithm
                      ++ import_calls secretKey hmacAlgorithm
                 else [default_keygen])
             ++ [Sign "HMAC" (JCryptoKey k) bytes;
                 Sign "HMAC" (JCryptoKey k) bytes]
        /\ fst out = Ok true).
Proof.
  intros Hv Hkey.
  assert (Hmain : forall left right bytes,
      validateValueOrConvertToUint8Array left = Ok bytes ->
      validateValueOrConvertToUint8Array right = Ok bytes ->
      bytes <> [] ->
      let secretKey := opt_get options "secretKey" in
      let hmacAlgorithm := hmacAlgorithm_of options in
      let out := run subtleCrypto
                   (webTimingSafeEqual StringToNumber left right options) w in
      exists key k signature,
        (truthy secretKey = true ->
         key = secretKey
         /\ signing_key subtleCrypto secretKey hmacAlgorithm k)
        /\ (truthy secretKey = false ->
            key = JCryptoKey k
            /\ fst (sc_generateKey subtleCrypto
                      {| kg_name := "HMAC";
                         kg_hash := JString (str "SHA-256");
                         kg_length := Some (Int 512) |}
                      true ["sign"%string] (w_state w)) = inr k)
        /\ (forall s,
               fst (sc_sign subtleCrypto "HMAC" (JCryptoKey k) bytes s)
               = inr signature)
        /\ length signature = digest_bytes (ck_hash k)
        /\ (forall w',
               fst (run subtleCrypto
                      (hmac key (JUint8Array bytes) hmacAlgorithm) w')
               = Ok (hex_of_bytes signature))
        /\ w_calls (snd out)
           = w_calls w
             ++ (if truthy secretKey
                 then import_calls secretKey hmacAlgorithm
                      ++ import_calls secretKey hmacAlgorithm
                 else [default_keygen])
             ++ [Sign "HMAC" (JCryptoKey k) bytes;
                 Sign "HMAC" (JCryptoKey k) bytes]
        /\ fst out = Ok true).
  { intros left right bytes Hl Hr Hne secretKey hmacAlgorithm out.
    subst secretKey hmacAlgorithm out.
    pose proof (hmacAlgorithm_supported Hv) as Hs.
    destruct (@compare_resolves options w Hv Hkey)
      as (key & k & pre & s' & Hsign & Hin & Ht & Hf & Hrun).
    destruct (@sign_total k bytes (w_state w) Hin) as (sg & Hsg & Hlen).
    destruct (@run_comparison key left right (hmacAlgorithm_of options) k
                bytes bytes sg sg
                {| w_state := s'; w_calls := w_calls w ++ pre |}
                Hsign Hs Hsg Hsg Hl Hr eq_refl Hne)
      as (s'' & cs & E & Hcs).
    assert (Ecs : cs = [Sign "HMAC" (JCryptoKey k) bytes;
                        Sign "HMAC" (JCryptoKey k) bytes])
      by (destruct Hcs as [->|[_ ->]]; reflexivity).
    subst cs.
    exists key, k, sg.
    split; [|split; [|split; [|split; [|split; [|split]]]]].
    - intros Hsk. destruct (Ht Hsk) as [-> _]. split; [reflexivity|assumption].
    - intros Hsk. destruct (Hf Hsk) as (-> & Ek & _).
      split; [reflexivity|assumption].
    - assumption.
    - assumption.
    - intros w'.
      destruct (run_yields
                  (@yields_hmac key (JUint8Array bytes)
                     (hmacAlgorithm_of options) bytes k
                     (inr sg) Hs eq_refl Hsign Hsg) w') as [s1 E1].
      rewrite E1. reflexivity.
    - rewrite Hrun, E. cbn [snd w_calls].
      destruct (truthy (opt_get options "secretKey")) eqn:Hsk.
      + destruct (Ht eq_refl) as [-> ->]. rewrite app_nil_r. reflexivity.
      + destruct (Hf eq_refl) as (-> & _ & ->).
        rewrite <- !app_assoc. reflexivity.
    - rewrite Hrun, E. cbn [fst].
      rewrite jsstring_eqb_refl. reflexivity. }
  split; [|exact Hmain].
  intros a Ha. destruct (nonempty_input_bytes Ha) as (b & bs & Hb).
  assert (Hne : b :: bs <> []) by discriminate.
  destruct (Hmain a a (b :: bs) Hb Hb Hne)
    as (key & k & sg & _ & _ & _ & _ & _ & _ & E).
  exact E.
Qed.

End ComparisonRuns.

(** C4 on the small provider: [webTimingSafeEqual("testString1",
    "testString1")] without options, and the bytes [1,2,3] against
    themselves under the text key ["k"], with the calls made. *)
Lemma compare_equal_inputs_witness :
  let w := {| w_state := 0; w_calls := [] |} in
  let import := ImportKey "raw" (JUint8Array [x6b])
                  {| ki_name := "HMAC"; ki_hash := JString (str "SHA-256") |}
                  false ["sign"%string] in
  fst (run Toy.subtle
         (webTimingSafeEqual Toy.StringToNumber (JString (str "testString1"))
            (JString (str "testString1")) JUndefined) w)
  = Ok true
  /\ exists k,
       let out :=
         run Toy.subtle
           (webTimingSafeEqual Toy.StringToNumber
              (JUint8Array [x01; x02; x03]) (JUint8Array [x01; x02; x03])
              (object [("secretKey"%string, JString (str "k"))])) w in
       w_calls (snd out)
       = [import; import;
          Sign "HMAC" (JCryptoKey k) [x01; x02; x03];
          Sign "HMAC" (JCryptoKey k) [x01; x02; x03]]
       /\ fst out = Ok true.
Proof.
  intros w import. split.
  - apply (proj1 (@compare_equal_inputs Toy.StringToNumber N Toy.subtle
                    toy_conforming JUndefined w valid_options_undefined
                    (or_introl eq_refl))).
    right. exists (str "testString1"). split; [left; reflexivity|discriminate].
  - assert (Hv : valid_options
                   (object [("secretKey"%string, JString (str "k"))])).
    { split; [discriminate|].
      split; [left; reflexivity|].
      split; [left; reflexivity|left; reflexivity]. }
    assert (Hk : usable_key
                   (opt_get (object [("secretKey"%string, JString (str "k"))])
                      "secretKey")).
    { right; left. exists (str "k"). split; [left; reflexivity|discriminate]. }
    assert (Hne : [x01; x02; x03] <> []) by discriminate.
    destruct (proj2 (@compare_equal_inputs Toy.StringToNumber N Toy.subtle
                       toy_conforming
                       (object [("secretKey"%string, JString (str "k"))]) w
                       Hv (or_intror Hk))
                (JUint8Array [x01; x02; x03]) (JUint8Array [x01; x02; x03])
                [x01; x02; x03] eq_refl eq_refl Hne)
      as (key & k & sg & _ & _ & _ & _ & _ & Elog & Eout).
    exists k. split; [exact Elog|exact Eout].
Defined.

(* ------------------------------------------------------------------ *)
(** ** Further properties: failing fast *)

(** X1.  [webTimingSafeEqual] checks its algorithm options before
    anything else.  A truthy [keyAlgorithm] that is not supported makes
    the call fail -- with [InvalidAlgorithm] of that value when the value
    has a string, with the [TypeError] of the message when it has none;
    so does, when [keyAlgorithm] passes, a truthy unsupported
    [hmacAlgorithm].  In both cases the computation is a bare throw: no
    call reaches the provider, whatever [left], [right] and [secretKey]
    are -- also when a key is supplied and [keyAlgorithm] would never be
    used. *)
Theorem compare_rejects_unsupported_algorithm
  (StringToNumber : JsString -> JsNumber) (left right options : JsValue) :
  let keyAlgorithm := opt_get options "keyAlgorithm" in
  let hmacAlgorithm := opt_get options "hmacAlgorithm" in
  (truthy keyAlgorithm = true -> ~ supported keyAlgorithm ->
   webTimingSafeEqual StringToNumber left right options
   = Throw (if stringifies keyAlgorithm
            then InvalidAlgorithm keyAlgorithm
            else TypeError))
  /\ (algorithm_option_ok keyAlgorithm ->
      truthy hmacAlgorithm = true -> ~ supported hmacAlgorithm ->
      webTimingSafeEqual StringToNumber left right options
      = Throw (if stringifies hmacAlgorithm
               then InvalidAlgorithm hmacAlgorithm
               else TypeError)).
Proof.
  intros keyAlgorithm hmacAlgorithm. split.
  - intros Ht Hn. unfold webTimingSafeEqual. rewrite !opt_get_or_default.
    fold keyAlgorithm. rewrite Ht, (validateAlgorithm_err Hn). reflexivity.
  - intros Hk Ht Hn. unfold webTimingSafeEqual. rewrite !opt_get_or_default.
    fold keyAlgorithm hmacAlgorithm.
    rewrite (algorithm_check_passes Hk), Ht, (validateAlgorithm_err Hn).
    reflexivity.
Qed.

(** X1 on [{keyAlgorithm: "MD5", secretKey: "k"}] with a number as left
    value, on [{hmacAlgorithm: "sha256"}], and on a [keyAlgorithm] that is
    an object without prototype. *)
Lemma compare_rejects_unsupported_algorithm_witness :
  webTimingSafeEqual Toy.StringToNumber (JNumber (Int 42)) (JString (str "a"))
    (object [("keyAlgorithm"%string, JString (str "MD5"));
             ("secretKey"%string, JString (str "k"))])
  = Throw (InvalidAlgorithm (JString (str "MD5")))
  /\ webTimingSafeEqual Toy.StringToNumber (JString (str "a"))
       (JString (str "a"))
       (object [("hmacAlgorithm"%string, JString (str "sha256"))])
     = Throw (InvalidAlgorithm (JString (str "sha256")))
  /\ webTimingSafeEqual Toy.StringToNumber (JString (str "a"))
       (JString (str "a"))
       (object [("keyAlgorithm"%string, JObject None [])])
     = Throw TypeError.
Proof.
  split; [|split].
  - apply (proj1 (compare_rejects_unsupported_algorithm Toy.StringToNumber
                    (JNumber (Int 42)) (JString (str "a"))
                    (object [("keyAlgorithm"%string, JString (str "MD5"));
                             ("secretKey"%string, JString (str "k"))]))).
    + reflexivity.
    + intros [H|[H|[H|H]]]; discriminate H.
  - apply (proj2 (compare_rejects_unsupported_algorithm Toy.StringToNumber
                    (JString (str "a")) (JString (str "a"))
                    (object [("hmacAlgorithm"%string,
                              JString (str "sha256"))]))).
    + left; reflexivity.
    + reflexivity.
    + intros [H|[H|[H|H]]]; discriminate H.
  - apply (proj1 (compare_rejects_unsupported_algorithm Toy.StringToNumber
                    (JString (str "a")) (JString (str "a"))
                    (object [("keyAlgorithm"%string, JObject None [])]))).
    + reflexivity.
    + intros [H|[H|[H|H]]]; discriminate H.
Defined.

Lemma falsy_stringifies (v : JsValue) :
  truthy v = false -> stringifies v = true.
Proof. destruct v; try discriminate; reflexivity. Qed.

(** X2.  [hmac] validates in a fixed order and before any call on the
    provider: an unsupported algorithm is reported first, whatever the
    message and the key are; then a message that is neither text nor
    bytes, whatever the key is.  The report is [InvalidAlgorithm] or
    [InvalidInputType] of the value when the value has a string, and the
    [TypeError] of the message when it has none.  The default SHA-256
    stands in for [undefined] only, so [null], the empty string or 0 as
    algorithm are rejected with [InvalidAlgorithm]. *)
Theorem hmac_validation_order (key message algorithm : JsValue) :
  let hash := or_default algorithm (JString (str "SHA-256")) in
  (~ supported hash ->
   hmac key message algorithm
   = Throw (if stringifies hash then InvalidAlgorithm hash else TypeError))
  /\ (supported hash -> is_text_or_bytes message = false ->
      hmac key message algorithm
      = Throw (if stringifies message
               then InvalidInputType message
               else TypeError))
  /\ (algorithm <> JUndefined -> truthy algorithm = false ->
      hmac key message algorithm = Throw (InvalidAlgorithm algorithm)).
Proof.
  intros hash. split; [|split].
  - intros Hn. unfold hmac. fold hash.
    rewrite (validateAlgorithm_err Hn). reflexivity.
  - intros Hs Hm. unfold hmac. fold hash.
    rewrite (validateAlgorithm_ok Hs), (validate_value_err _ Hm). reflexivity.
  - intros Hu Hf.
    assert (E : hash = algorithm)
      by (unfold hash; destruct algorithm; try reflexivity; congruence).
    assert (Hn : ~ supported hash).
    { rewrite E. intros Hs. apply supported_truthy in Hs. congruence. }
    unfold hmac. fold hash. rewrite (validateAlgorithm_err Hn), E.
    unfold rejection. rewrite (falsy_stringifies _ Hf). reflexivity.
Qed.

(** X2 on [hmac(5, "m", "MD5")], [hmac(key, 42)], [hmac("k", "m", null)]
    and on a symbol as message. *)
Lemma hmac_validation_order_witness :
  hmac (JNumber (Int 5)) (JString (str "m")) (JString (str "MD5"))
  = Throw (InvalidAlgorithm (JString (str "MD5")))
  /\ hmac (JCryptoKey sample_key512) (JNumber (Int 42)) JUndefined
     = Throw (InvalidInputType (JNumber (Int 42)))
  /\ hmac (JString (str "k")) (JString (str "m")) JNull
     = Throw (InvalidAlgorithm JNull)
  /\ hmac (JCryptoKey sample_key512) JSymbol JUndefined = Throw TypeError.
Proof.
  split; [|split; [|split]].
  - apply (proj1 (hmac_validation_order (JNumber (Int 5)) (JString (str "m"))
                    (JString (str "MD5")))).
    intros [H|[H|[H|H]]]; discriminate H.
  - apply (proj1 (proj2 (hmac_validation_order (JCryptoKey sample_key512)
                           (JNumber (Int 42)) JUndefined))).
    + right; left; reflexivity.
    + reflexivity.
  - apply (proj2 (proj2 (hmac_validation_order (JString (str "k"))
                           (JString (str "m")) JNull))).
    + discriminate.
    + reflexivity.
  - apply (proj1 (proj2 (hmac_validation_order (JCryptoKey sample_key512)
                           JSymbol JUndefined))).
    + right; left; reflexivity.
    + reflexivity.
Defined.

(** X3.  A [keyLength] that is given but falsy (0, [null], [false], NaN,
    the empty string) does not ask the provider for a key of zero bits:
    [generateSecretKey] leaves the [length] member out of the request, and
    the provider chooses the length. *)
Theorem generateSecretKey_falsy_keyLength
  (StringToNumber : JsString -> JsNumber) (options : JsValue) :
  options <> JNull ->
  let o := or_default options empty_object in
  let algorithm := or_default (js_get o "algorithm") (JString (str "SHA-256")) in
  js_get o "keyLength" <> JUndefined ->
  truthy (js_get o "keyLength") = false ->
  supported algorithm ->
  generateSecretKey StringToNumber options
  = await (GenerateKey {| kg_name := "HMAC"; kg_hash := algorithm;
                          kg_length := None |}
             true ["sign"%string]).
Proof.
  intros Hnull o algorithm Hu Hf Hs.
  unfold generateSecretKey. fold o.
  unfold o at 1 2. rewrite !get_object by assumption. fold o.
  cbn [lift bind Ok]. fold algorithm. rewrite (validateAlgorithm_ok Hs).
  cbn [lift bind Ok].
  assert (E : or_default (js_get o "keyLength") (JNumber (Int 64))
              = js_get o "keyLength")
    by (destruct (js_get o "keyLength"); try reflexivity; congruence).
  rewrite E, Hf. reflexivity.
Qed.

(** X3 on [generateSecretKey({keyLength: 0})] with the small provider,
    which then takes the block size of SHA-256, 512 bits. *)
Lemma generateSecretKey_falsy_keyLength_witness :
  generateSecretKey Toy.StringToNumber
    (object [("keyLength"%string, JNumber (Int 0))])
  = await (GenerateKey {| kg_name := "HMAC";
                          kg_hash := JString (str "SHA-256");
                          kg_length := None |}
             true ["sign"%string]).
Proof.
  apply (@generateSecretKey_falsy_keyLength Toy.StringToNumber
           (object [("keyLength"%string, JNumber (Int 0))])).
  - discriminate.
  - discriminate.
  - reflexivity.
  - right; left; reflexivity.
Defined.



(* ------------------------------------------------------------------ *)
(** ** Further properties: the hex encoding loses nothing *)

Lemma hex_byte_digits (b : byte) :
  padStart 2 48 (toString16 b)
  = [hex_digit (Byte.to_N b / 16); hex_digit (Byte.to_N b mod 16)].
Proof. destruct b; reflexivity. Qed.

Lemma hex_digit_injective (d1 d2 : N) :
  d1 < 16 -> d2 < 16 -> hex_digit d1 = hex_digit d2 -> d1 = d2.
Proof.
  unfold hex_digit. intros H1 H2.
  destruct (N.ltb_spec d1 10), (N.ltb_spec d2 10); lia.
Qed.

Lemma hex_byte_injective (b1 b2 : byte) :
  padStart 2 48 (toString16 b1) = padStart 2 48 (toString16 b2) -> b1 = b2.
Proof.
  rewrite !hex_byte_digits. intros E. injection E as Ehi Elo.
  pose proof (Byte.to_N_bounded b1) as B1.
  pose proof (Byte.to_N_bounded b2) as B2.
  assert (Hhi : Byte.to_N b1 / 16 = Byte.to_N b2 / 16).
  { apply hex_digit_injective; [| |assumption];
      apply N.Div0.div_lt_upper_bound; lia. }
  assert (Hlo : Byte.to_N b1 mod 16 = Byte.to_N b2 mod 16).
  { apply hex_digit_injective; [| |assumption];
      apply N.mod_upper_bound; discriminate. }
  assert (E : Byte.to_N b1 = Byte.to_N b2).
  { rewrite (N.div_mod (Byte.to_N b1) 16), (N.div_mod (Byte.to_N b2) 16)
      by discriminate.
    rewrite Hhi, Hlo. reflexivity. }
  assert (E' : Some b1 = Some b2)
    by (rewrite <- (Byte.of_to_N b1), <- (Byte.of_to_N b2), E; reflexivity).
  injection E'. auto.
Qed.

Lemma hex_of_bytes_cons (b : byte) (bytes : list byte) :
  hex_of_bytes (b :: bytes)
  = hex_digit (Byte.to_N b / 16) :: hex_digit (Byte.to_N b mod 16)
      :: hex_of_bytes bytes.
Proof.
  unfold hex_of_bytes. cbn [map concat]. rewrite hex_byte_digits. reflexivity.
Qed.

Lemma hex_of_bytes_injective (a b : list byte) :
  hex_of_bytes a = hex_of_bytes b -> a = b.
Proof.
  revert b. induction a as [|x a IH]; intros [|y b].
  - reflexivity.
  - rewrite hex_of_bytes_cons. discriminate.
  - rewrite hex_of_bytes_cons. discriminate.
  - rewrite !hex_of_bytes_cons. intros E. injection E as Ehi Elo Erest.
    f_equal; [|apply IH; assumption].
    apply hex_byte_injective. rewrite !hex_byte_digits. congruence.
Qed.

(** X4.  The hex encoding of [hmac] loses nothing: because every byte is
    padded to two digits, the strict equality of two hex strings, which is
    what [webTimingSafeEqual] returns, holds exactly when the two
    signatures are the same bytes. *)
Theorem hex_equality_is_byte_equality (a b : list byte) :
  jsstring_eqb (hex_of_bytes a) (hex_of_bytes b) = true <-> a = b.
Proof.
  rewrite jsstring_eqb_eq. split.
  - apply hex_of_bytes_injective.
  - intros ->. reflexivity.
Qed.

(** X4 on the bytes [01 10] and [11 00], whose digits without the padding
    would both read 110. *)
Lemma hex_equality_is_byte_equality_witness :
  jsstring_eqb (hex_of_bytes [x01; x10]) (hex_of_bytes [x01; x10]) = true
  /\ jsstring_eqb (hex_of_bytes [x01; x10]) (hex_of_bytes [x11; x00]) = false.
Proof.
  split.
  - exact (proj2 (hex_equality_is_byte_equality [x01; x10] [x01; x10]) eq_refl).
  - destruct (jsstring_eqb (hex_of_bytes [x01; x10]) (hex_of_bytes [x11; x00]))
      eqn:E; [|reflexivity].
    apply (proj1 (hex_equality_is_byte_equality [x01; x10] [x11; x00])) in E.
    discriminate E.
Defined.

(* ------------------------------------------------------------------ *)
(** ** Further properties: the algorithm and a key handle *)

(** X5.  For a key whose constructor is named CryptoKey the algorithm
    argument of [hmac] is validated and then never used: with any two
    supported algorithms [hmac] is the same computation, signing under the
    handle as it is. *)
Theorem hmac_handle_ignores_algorithm (key message a1 a2 : JsValue) :
  constructor_name key = Some "CryptoKey"%string ->
  supported (or_default a1 (JString (str "SHA-256"))) ->
  supported (or_default a2 (JString (str "SHA-256"))) ->
  hmac key message a1 = hmac key message a2.
Proof.
  intros Hk H1 H2. apply is_CryptoKey_name in Hk.
  destruct (validateValueOrConvertToUint8Array message) as [e|data] eqn:Hm.
  - unfold hmac.
    rewrite (validateAlgorithm_ok H1), (validateAlgorithm_ok H2), Hm.
    reflexivity.
  - rewrite (hmac_with_handle key message a1 H1 Hm Hk).
    rewrite (hmac_with_handle key message a2 H2 Hm Hk). reflexivity.
Qed.

(** X5 on a SHA-512 key handle with SHA-1 and with the default. *)
Lemma hmac_handle_ignores_algorithm_witness :
  hmac (JCryptoKey sample_key512) (JString (str "m")) (JString (str "SHA-1"))
  = hmac (JCryptoKey sample_key512) (JString (str "m")) JUndefined.
Proof.
  apply hmac_handle_ignores_algorithm.
  - reflexivity.
  - left; reflexivity.
  - right; left; reflexivity.
Defined.

(* ------------------------------------------------------------------ *)
(** ** Further properties: the full comparison *)

Lemma same_sym {A} (m1 m2 : Async A) : same m1 m2 -> same m2 m1.
Proof. induction 1; constructor; auto. Qed.

Lemma same_inversion {A} (m1 m2 : Async A) :
  same m1 m2 ->
  match m1, m2 with
  | Ret a, Ret b => a = b
  | Throw e1, Throw e2 => e1 = e2
  | Await c1 k1, Await c2 k2 =>
      exists e : c1 = c2,
        forall o, same (k1 o) (k2 (eq_rect c1 Outcome o c2 e))
  | Settle k1, Settle k2 => forall first, same (k1 first) (k2 first)
  | _, _ => False
  end.
Proof.
  intros H. destruct H as [a|e|c k1 k2 Hk|k1 k2 Hk]; try reflexivity.
  - exists eq_refl. exact Hk.
  - exact Hk.
Qed.

Lemma same_trans {A} (m1 m2 m3 : Async A) :
  same m1 m2 -> same m2 m3 -> same m1 m3.
Proof.
  intros H. revert m3.
  induction H as [a|e|c k1 k2 Hk IH|k1 k2 Hk IH]; intros m3 H3.
  - assumption.
  - assumption.
  - apply same_inversion in H3.
    destruct m3 as [a|e|c3 k3|k3]; try contradiction.
    destruct H3 as [e H3]. destruct e. cbn [eq_rect] in H3.
    constructor. intros o. apply IH. apply H3.
  - apply same_inversion in H3.
    destruct m3 as [a|e|c3 k3|k3]; try contradiction.
    constructor. intros first. apply IH. apply H3.
Qed.

Lemma jsstring_eqb_sym (a b : JsString) : jsstring_eqb a b = jsstring_eqb b a.
Proof.
  destruct (jsstring_eqb a b) eqn:E1, (jsstring_eqb b a) eqn:E2;
    try reflexivity.
  - apply jsstring_eqb_eq in E1. subst. rewrite jsstring_eqb_refl in E2.
    discriminate.
  - apply jsstring_eqb_eq in E2. subst. rewrite jsstring_eqb_refl in E1.
    discriminate.
Qed.

Lemma comparison_handle_algorithm (k : CryptoKey) (left right a1 a2 : JsValue) :
  supported (or_default a1 (JString (str "SHA-256"))) ->
  supported (or_default a2 (JString (str "SHA-256"))) ->
  comparison (JCryptoKey k) left right a1
  = comparison (JCryptoKey k) left right a2.
Proof.
  intros H1 H2. unfold comparison.
  destruct (validateValueOrConvertToUint8Array left) as [e|l]; [reflexivity|].
  destruct (validateValueOrConvertToUint8Array right) as [e|r]; [reflexivity|].
  cbn [lift bind].
  destruct (negb (Nat.eqb (length l) (length r)) || Nat.eqb (length l) 0);
    [reflexivity|].
  rewrite (hmac_with_handle (JCryptoKey k) (JUint8Array l) a1 H1 eq_refl eq_refl).
  rewrite (hmac_with_handle (JCryptoKey k) (JUint8Array r) a1 H1 eq_refl eq_refl).
  rewrite (hmac_with_handle (JCryptoKey k) (JUint8Array l) a2 H2 eq_refl eq_refl).
  rewrite (hmac_with_handle (JCryptoKey k) (JUint8Array r) a2 H2 eq_refl eq_refl).
  reflexivity.
Qed.

Section FullComparison.

Variable StringToNumber : JsString -> JsNumber.
Variable S : Type.
Variable subtleCrypto : SubtleCrypto S.
Hypothesis contract : conforming subtleCrypto.

(** X6.  With a conforming provider, options typed as the documentation
    types them, and a key that is left out or usable, the comparison of
    two values of the same non-zero coerced length never fails, and it
    returns [true] exactly when the provider's signatures of the two byte
    sequences under the resolved key are the same bytes.  The resolved key
    [k] is the handle given, the handle imported from the text or bytes
    given, or the handle the provider generates for the call. *)
Theorem compare_true_iff_signatures_equal (options left right : JsValue)
  (l r : list byte) (w : World S) :
  valid_options options ->
  truthy (opt_get options "secretKey") = false
  \/ usable_key (opt_get options "secretKey") ->
  validateValueOrConvertToUint8Array left = Ok l ->
  validateValueOrConvertToUint8Array right = Ok r ->
  length l = length r ->
  l <> [] ->
  exists k sl sr b,
    (truthy (opt_get options "secretKey") = true ->
     signing_key subtleCrypto (opt_get options "secretKey")
       (hmacAlgorithm_of options) k)
    /\ (truthy (opt_get options "secretKey") = false ->
        fst (sc_generateKey subtleCrypto
               {| kg_name := "HMAC"; kg_hash := JString (str "SHA-256");
                  kg_length := Some (Int 512) |}
               true ["sign"%string] (w_state w)) = inr k)
    /\ (forall s, fst (sc_sign subtleCrypto "HMAC" (JCryptoKey k) l s) = inr sl)
    /\ (forall s, fst (sc_sign subtleCrypto "HMAC" (JCryptoKey k) r s) = inr sr)
    /\ fst (run subtleCrypto
              (webTimingSafeEqual StringToNumber left right options) w)
       = Ok b
    /\ (b = true <-> sl = sr).
Proof.
  intros Hv Hkey Hl Hr Hlen Hne.
  destruct (@compare_resolves StringToNumber S subtleCrypto contract
              options w Hv Hkey)
    as (key & k & pre & s' & Hsign & Hin & Ht & Hf & Hrun).
  destruct (@sign_total S subtleCrypto contract k l (w_state w) Hin)
    as (sl & Hsl & _).
  destruct (@sign_total S subtleCrypto contract k r (w_state w) Hin)
    as (sr & Hsr & _).
  destruct (@run_comparison S subtleCrypto key left right
              (hmacAlgorithm_of options) k
              l r sl sr {| w_state := s'; w_calls := w_calls w ++ pre |}
              Hsign (hmacAlgorithm_supported Hv) Hsl Hsr Hl Hr Hlen Hne)
    as (s'' & cs & E & _).
  exists k, sl, sr, (jsstring_eqb (hex_of_bytes sl) (hex_of_bytes sr)).
  split; [|split; [|split; [|split; [|split]]]]; try assumption.
  - intros Hsk. destruct (Ht Hsk) as [<- _]. assumption.
  - intros Hsk. destruct (Hf Hsk) as (_ & Ek & _). assumption.
  - rewrite Hrun, E. reflexivity.
  - rewrite jsstring_eqb_eq. split.
    + apply hex_of_bytes_injective.
    + intros ->. reflexivity.
Qed.


Lemma comparison_symmetric (key left right algorithm : JsValue)
  (k : CryptoKey) (w : World S) :
  signing_key subtleCrypto key algorithm k ->
  In "sign"%string (ck_usages k) ->
  supported (or_default algorithm (JString (str "SHA-256"))) ->
  is_text_or_bytes left = true ->
  is_text_or_bytes right = true ->
  fst (run subtleCrypto (comparison key left right algorithm) w)
  = fst (run subtleCrypto (comparison key right left algorithm) w).
Proof.
  intros Hsign Hin Hs Htl Htr.
  destruct (validate_value_ok _ Htl) as [l Hl].
  destruct (validate_value_ok _ Htr) as [r Hr].
  destruct (Nat.eq_dec (length l) (length r)) as [Hlen|Hlen].
  - destruct l as [|b bs].
    + rewrite (comparison_short_circuit key _ _ algorithm Hl Hr
                 (or_intror (or_introl eq_refl))).
      rewrite (comparison_short_circuit key _ _ algorithm Hr Hl
                 (or_intror (or_intror eq_refl))).
      reflexivity.
    + assert (Hne : b :: bs <> []) by discriminate.
      assert (Hne' : r <> []) by (destruct r; [discriminate|discriminate]).
      destruct (@sign_total S subtleCrypto contract k (b :: bs) (w_state w)
                  Hin) as (sl & Hsl & _).
      destruct (@sign_total S subtleCrypto contract k r (w_state w) Hin)
        as (sr & Hsr & _).
      destruct (@run_comparison S subtleCrypto key left right algorithm k
                  (b :: bs) r sl sr w
                  Hsign Hs Hsl Hsr Hl Hr Hlen Hne) as (s1 & cs1 & E1 & _).
      destruct (@run_comparison S subtleCrypto key right left algorithm k
                  r (b :: bs) sr sl w
                  Hsign Hs Hsr Hsl Hr Hl (eq_sym Hlen) Hne')
        as (s2 & cs2 & E2 & _).
      rewrite E1, E2. cbn [fst]. rewrite jsstring_eqb_sym. reflexivity.
  - rewrite (comparison_short_circuit key _ _ algorithm Hl Hr
               (or_introl Hlen)).
    rewrite (comparison_short_circuit key _ _ algorithm Hr Hl
               (or_introl (fun E => Hlen (eq_sym E)))).
    reflexivity.
Qed.

(** X8.  The comparison is symmetric: with a conforming provider, options
    typed as documented and a key that is left out or usable, swapping two
    values that are text or bytes does not change the outcome. *)
Theorem compare_symmetric (options left right : JsValue) (w : World S) :
  valid_options options ->
  truthy (opt_get options "secretKey") = false
  \/ usable_key (opt_get options "secretKey") ->
  is_text_or_bytes left = true ->
  is_text_or_bytes right = true ->
  fst (run subtleCrypto
         (webTimingSafeEqual StringToNumber left right options) w)
  = fst (run subtleCrypto
           (webTimingSafeEqual StringToNumber right left options) w).
Proof.
  intros Hv Hkey Htl Htr.
  destruct (@compare_resolves StringToNumber S subtleCrypto contract
              options w Hv Hkey)
    as (key & k & pre & s' & Hsign & Hin & _ & _ & Hrun).
  rewrite !Hrun.
  exact (@comparison_symmetric key left right (hmacAlgorithm_of options) k _
           Hsign Hin (hmacAlgorithm_supported Hv) Htl Htr).
Qed.

End FullComparison.

(** X6 on [webTimingSafeEqual("abc", "abd")] with the small provider. *)
Lemma compare_true_iff_signatures_equal_witness :
  exists (sl sr : list byte) (b : bool),
    fst (run Toy.subtle
           (webTimingSafeEqual Toy.StringToNumber (JString (str "abc"))
              (JString (str "abd")) JUndefined)
           {| w_state := 0; w_calls := [] |})
    = Ok b
    /\ (b = true <-> sl = sr).
Proof.
  assert (Hne : [x61; x62; x63] <> []) by discriminate.
  destruct (@compare_true_iff_signatures_equal Toy.StringToNumber N Toy.subtle
              toy_conforming JUndefined (JString (str "abc"))
              (JString (str "abd")) [x61; x62; x63] [x61; x62; x64]
              {| w_state := 0; w_calls := [] |}
              valid_options_undefined (or_introl eq_refl)
              eq_refl eq_refl eq_refl Hne)
    as (k & sl & sr & b & _ & _ & _ & _ & E & Hb).
  exists sl, sr, b. split; assumption.
Defined.


(** Both orders of X7 occur: the small provider settles the call of the
    left [hmac] first in the state 0 and the call of the right one first
    in the state 1. *)
Lemma compare_call_log_both_orders :
  let import := ImportKey "raw" (JUint8Array [x6b])
                  {| ki_name := "HMAC"; ki_hash := JString (str "SHA-256") |}
                  false ["sign"%string] in
  let k := {| ck_hash := SHA256; ck_length := 8; ck_extractable := false;
              ck_usages := ["sign"%string]; ck_material := [x6b] |} in
  let call := webTimingSafeEqual Toy.StringToNumber
                (JString (str "abc")) (JString (str "abd"))
                (object [("secretKey"%string, JString (str "k"))]) in
  exec Toy.subtle call 0
  = (Ok false,
     [import; import;
      Sign "HMAC" (JCryptoKey k) [x61; x62; x63];
      Sign "HMAC" (JCryptoKey k) [x61; x62; x64]])
  /\ exec Toy.subtle call 1
     = (Ok false,
        [import; import;
         Sign "HMAC" (JCryptoKey k) [x61; x62; x64];
         Sign "HMAC" (JCryptoKey k) [x61; x62; x63]]).
Proof. split; vm_compute; reflexivity. Qed.

(** X8 on ["abc"] against the bytes of ["abd"], with the small provider. *)
Lemma compare_symmetric_witness :
  fst (run Toy.subtle
         (webTimingSafeEqual Toy.StringToNumber (JString (str "abc"))
            (JUint8Array [x61; x62; x64]) JUndefined)
         {| w_state := 0; w_calls := [] |})
  = fst (run Toy.subtle
           (webTimingSafeEqual Toy.StringToNumber (JUint8Array [x61; x62; x64])
              (JString (str "abc")) JUndefined)
           {| w_state := 0; w_calls := [] |}).
Proof.
  exact (@compare_symmetric Toy.StringToNumber N Toy.subtle toy_conforming
           JUndefined (JString (str "abc")) (JUint8Array [x61; x62; x64])
           {| w_state := 0; w_calls := [] |}
           valid_options_undefined (or_introl eq_refl) eq_refl eq_refl).
Defined.

(* ------------------------------------------------------------------ *)
(** ** Further properties: [hmacAlgorithm] without a key *)

Lemma valid_options_without_hmacAlgorithm (ctor : option string) (ps : Props) :
  valid_options (JObject ctor ps) ->
  valid_options (JObject ctor (without "hmacAlgorithm" ps)).
Proof.
  intros (_ & Hka & _ & Hkl). split; [discriminate|].
  cbn [opt_get js_get] in *.
  rewrite lookup_without_same.
  rewrite !(@lookup_without_other _ "hmacAlgorithm") by reflexivity.
  split; [assumption|]. split; [left; reflexivity|assumption].
Qed.

(** X9.  When the call generates its key, the [hmacAlgorithm] option is
    validated and then has no effect: the generated key is a handle, and
    [hmac] signs under a handle whatever algorithm it is given.  With
    options typed as documented the call is the same computation as on
    the options without [hmacAlgorithm]. *)
Theorem hmacAlgorithm_has_no_effect_without_key
  (StringToNumber : JsString -> JsNumber) (left right : JsValue)
  (ctor : option string) (ps : Props) :
  valid_options (JObject ctor ps) ->
  truthy (lookup "secretKey" ps) = false ->
  same (webTimingSafeEqual StringToNumber left right (JObject ctor ps))
    (webTimingSafeEqual StringToNumber left right
       (JObject ctor (without "hmacAlgorithm" ps))).
Proof.
  intros Hv Hsk.
  pose proof (valid_options_without_hmacAlgorithm Hv) as Hv'.
  assert (Hsk' : truthy (opt_get (JObject ctor (without "hmacAlgorithm" ps))
                           "secretKey") = false).
  { cbn [opt_get js_get].
    rewrite (@lookup_without_other _ "hmacAlgorithm") by reflexivity.
    assumption. }
  eapply same_trans;
    [exact (compare_with_generated_key StringToNumber left right Hv Hsk)|].
  eapply same_trans;
    [|apply same_sym;
      exact (compare_with_generated_key StringToNumber left right Hv' Hsk')].
  apply same_bind; [apply same_refl|]. intros k.
  rewrite (@comparison_handle_algorithm k left right _ _
             (hmacAlgorithm_supported Hv) (hmacAlgorithm_supported Hv')).
  apply same_refl.
Qed.

(** X9 on [{hmacAlgorithm: "SHA-512"}] against the empty options. *)
Lemma hmacAlgorithm_has_no_effect_without_key_witness :
  same (webTimingSafeEqual Toy.StringToNumber (JString (str "a"))
          (JString (str "a"))
          (object [("hmacAlgorithm"%string, JString (str "SHA-512"))]))
    (webTimingSafeEqual Toy.StringToNumber (JString (str "a"))
       (JString (str "a")) (object [])).
Proof.
  apply (@hmacAlgorithm_has_no_effect_without_key Toy.StringToNumber
           (JString (str "a")) (JString (str "a")) (Some "Object"%string)
           [("hmacAlgorithm"%string, JString (str "SHA-512"))]).
  - split; [discriminate|].
    split; [left; reflexivity|].
    split; [right; right; right; right; reflexivity|left; reflexivity].
  - reflexivity.
Defined.

(* ------------------------------------------------------------------ *)
(** ** Further properties: a generated key in [hmac] *)

Lemma hash_of_value_supported (v : JsValue) (h : HashAlg) :
  hash_of_value v = Some h -> supported v.
Proof.
  destruct v; try discriminate. unfold hash_of_value, supported.
  destruct (jsstring_eqb s (str "SHA-1")) eqn:E1;
    [apply jsstring_eqb_eq in E1; subst; auto|].
  destruct (jsstring_eqb s (str "SHA-256")) eqn:E2;
    [apply jsstring_eqb_eq in E2; subst; auto|].
  destruct (jsstring_eqb s (str "SHA-384")) eqn:E3;
    [apply jsstring_eqb_eq in E3; subst; auto|].
  destruct (jsstring_eqb s (str "SHA-512")) eqn:E4;
    [apply jsstring_eqb_eq in E4; subst; auto 6|].
  discriminate.
Qed.

Lemma generateSecretKey_request (StringToNumber : JsString -> JsNumber)
  (options : JsValue) (n : Z) :
  options <> JNull ->
  let o := or_default options empty_object in
  let algorithm := or_default (js_get o "algorithm") (JString (str "SHA-256")) in
  supported algorithm ->
  or_default (js_get o "keyLength") (JNumber (Int 64)) = JNumber (Int n) ->
  n <> 0%Z ->
  (Z.abs n < 2 ^ 1021)%Z ->
  generateSecretKey StringToNumber options
  = await (GenerateKey {| kg_name := "HMAC"; kg_hash := algorithm;
                          kg_length := Some (Int (n * 8)) |}
             true ["sign"%string]).
Proof.
  intros Hnull o algorithm Hs Hlen Hn Hsmall.
  unfold generateSecretKey. fold o.
  unfold o at 1 2. rewrite !get_object by assumption. fold o.
  cbn [lift bind Ok]. fold algorithm. rewrite (validateAlgorithm_ok Hs).
  cbn [lift bind Ok]. rewrite Hlen. cbn [truthy].
  destruct (Z.eqb_spec n 0) as [E0|_]; [contradiction|].
  cbn [negb ToNumber lift bind Ok]. rewrite (times8_exact n Hsmall).
  reflexivity.
Qed.

Section GeneratedKey.

Variable StringToNumber : JsString -> JsNumber.
Variable S : Type.
Variable subtleCrypto : SubtleCrypto S.
Hypothesis contract : conforming subtleCrypto.

(** X10.  A key from [generateSecretKey] goes into [hmac] as it is.  With
    a conforming provider, a supported key algorithm of hash [h] and a
    non-zero integer [keyLength] (64 when left out) whose eightfold is a
    double still: when the provider grants the key it was asked for,
    generating a key and then computing the HMAC of a message that is
    text or bytes makes exactly two calls, the key generation and one
    signature under the generated handle -- no import -- and returns the
    hex encoding of that signature, of twice the digest size of [h]
    characters, whatever algorithm is handed to [hmac].  When the
    provider rejects the request, its rejection is the outcome and the
    key generation the only call. *)
Theorem generated_key_signs_without_import
  (options message algorithm : JsValue) (data : list byte) (h : HashAlg)
  (n : Z) (w : World S) :
  options <> JNull ->
  let o := or_default options empty_object in
  let keyAlgorithm :=
    or_default (js_get o "algorithm") (JString (str "SHA-256")) in
  let request :=
    {| kg_name := "HMAC"; kg_hash := keyAlgorithm;
       kg_length := Some (Int (n * 8)) |} in
  let granted :=
    sc_generateKey subtleCrypto request true ["sign"%string] (w_state w) in
  let out :=
    run subtleCrypto
      (key <- generateSecretKey StringToNumber options ;;
       hmac (JCryptoKey key) message algorithm) w in
  hash_of_value keyAlgorithm = Some h ->
  or_default (js_get o "keyLength") (JNumber (Int 64)) = JNumber (Int n) ->
  n <> 0%Z ->
  (Z.abs n < 2 ^ 1021)%Z ->
  supported (or_default algorithm (JString (str "SHA-256"))) ->
  validateValueOrConvertToUint8Array message = Ok data ->
  (forall k,
      fst granted = inr k ->
      exists s' signature,
        out
        = (Ok (hex_of_bytes signature),
           {| w_state := s';
              w_calls := w_calls w ++
                         [GenerateKey request true ["sign"%string];
                          Sign "HMAC" (JCryptoKey k) data] |})
        /\ fst (sc_sign subtleCrypto "HMAC" (JCryptoKey k) data (snd granted))
           = inr signature
        /\ ck_hash k = h
        /\ length (hex_of_bytes signature) = (2 * digest_bytes h)%nat)
  /\ (forall name,
      fst granted = inl name ->
      out
      = (Err (ProviderFailure name),
         {| w_state := snd granted;
            w_calls := w_calls w ++ [GenerateKey request true ["sign"%string]]
         |})).
Proof.
  intros Hnull o keyAlgorithm request granted out Hh Hlen Hn Hsmall Hs Hm.
  assert (Eout : out
                 = match fst granted with
                   | inl name =>
                       (Err (ProviderFailure name),
                        {| w_state := snd granted;
                           w_calls :=
                             w_calls w
                             ++ [GenerateKey request true ["sign"%string]] |})
                   | inr k =>
                       run subtleCrypto
                         (hmac (JCryptoKey k) message algorithm)
                         {| w_state := snd granted;
                            w_calls :=
                              w_calls w
                              ++ [GenerateKey request true ["sign"%string]] |}
                   end).
  { unfold out.
    rewrite (@generateSecretKey_request StringToNumber options n Hnull
               (hash_of_value_supported _ Hh) Hlen Hn Hsmall).
    fold o. fold keyAlgorithm. fold request.
    rewrite run_bind.
    pose proof (run_await subtleCrypto
                  (GenerateKey request true ["sign"%string]) w) as R.
    cbn [Reply perform] in R. rewrite R. unfold granted.
    destruct (sc_generateKey subtleCrypto request true ["sign"%string]
                (w_state w)) as [[name|k] s1]; reflexivity. }
  split.
  - intros k Ek. rewrite Eout, Ek.
    destruct (@cf_generate_bound _ _ contract keyAlgorithm h _ _ _ _ _ Hh Ek)
      as [Ehash Eusages].
    assert (Hin : In "sign"%string (ck_usages k))
      by (rewrite Eusages; left; reflexivity).
    destruct (cf_sign contract k data (snd granted) Hin) as (sg & Es & Hsl).
    exists (snd (sc_sign subtleCrypto "HMAC" (JCryptoKey k) data (snd granted))),
      sg.
    split; [|split; [|split]].
    + rewrite (hmac_with_handle (JCryptoKey k) message algorithm Hs Hm eq_refl).
      rewrite run_sign_only. cbn [w_state w_calls]. rewrite Es.
      rewrite <- app_assoc. reflexivity.
    + assumption.
    + assumption.
    + rewrite hex_of_bytes_length, Hsl, Ehash. reflexivity.
  - intros name Ek. rewrite Eout, Ek. reflexivity.
Qed.

(** X11.  The comparison is one of encoded bytes, not of characters: the
    encoder writes every unpaired surrogate as the bytes of U+FFFD, so two
    one-character strings that are different lone surrogates compare as
    equal (with a conforming provider, options typed as documented and a
    key that is left out or usable). *)
Theorem compare_lone_surrogates_equal (options : JsValue) (c1 c2 : N)
  (w : World S) :
  valid_options options ->
  truthy (opt_get options "secretKey") = false
  \/ usable_key (opt_get options "secretKey") ->
  is_high_surrogate c1 || is_low_surrogate c1 = true ->
  is_high_surrogate c2 || is_low_surrogate c2 = true ->
  fst (run subtleCrypto
         (webTimingSafeEqual StringToNumber (JString [c1]) (JString [c2])
            options) w)
  = Ok true.
Proof.
  intros Hv Hkey H1 H2.
  assert (Henc : forall c,
             is_high_surrogate c || is_low_surrogate c = true ->
             TextEncoder_encode [c] = replacement_bytes).
  { intros c Hc. cbn [TextEncoder_encode].
    assert (Hge : 0xD800 <= c).
    { apply orb_true_iff in Hc. unfold is_high_surrogate, is_low_surrogate in Hc.
      rewrite !andb_true_iff, !N.leb_le in Hc. lia. }
    destruct (N.ltb_spec c 0x80) as [Hlt|_]; [lia|].
    destruct (N.ltb_spec c 0x800) as [Hlt|_]; [lia|].
    destruct (is_high_surrogate c) eqn:Eh; [reflexivity|].
    cbn [orb] in Hc. rewrite Hc. apply app_nil_r. }
  destruct (@compare_resolves StringToNumber S subtleCrypto contract
              options w Hv Hkey)
    as (key & k & pre & s' & Hsign & Hin & _ & _ & Hrun).
  destruct (@sign_total S subtleCrypto contract k replacement_bytes
              (w_state w) Hin) as (sg & Hsg & _).
  destruct (@run_comparison S subtleCrypto key (JString [c1]) (JString [c2])
              (hmacAlgorithm_of options) k replacement_bytes replacement_bytes
              sg sg {| w_state := s'; w_calls := w_calls w ++ pre |}
              Hsign (hmacAlgorithm_supported Hv) Hsg Hsg)
    as (s'' & cs & E & _).
  - cbn [validateValueOrConvertToUint8Array]. rewrite (Henc c1 H1). reflexivity.
  - cbn [validateValueOrConvertToUint8Array]. rewrite (Henc c2 H2). reflexivity.
  - reflexivity.
  - discriminate.
  - rewrite Hrun, E. cbn [fst]. rewrite jsstring_eqb_refl. reflexivity.
Qed.

End GeneratedKey.

(** X10 on [generateSecretKey({algorithm: "SHA-384"})] followed by
    [hmac(key, "m", "SHA-1")] with the small provider: 96 hex digits. *)
Lemma generated_key_signs_without_import_witness :
  exists k s' signature,
    run Toy.subtle
      (key <- generateSecretKey Toy.StringToNumber
                (object [("algorithm"%string, JString (str "SHA-384"))]) ;;
       hmac (JCryptoKey key) (JString (str "m")) (JString (str "SHA-1")))
      {| w_state := 0; w_calls := [] |}
    = (Ok (hex_of_bytes signature),
       {| w_state := s';
          w_calls :=
            [GenerateKey {| kg_name := "HMAC";
                            kg_hash := JString (str "SHA-384");
                            kg_length := Some (Int 512) |}
               true ["sign"%string];
             Sign "HMAC" (JCryptoKey k) [x6d]] |})
    /\ ck_hash k = SHA384
    /\ length (hex_of_bytes signature) = 96%nat.
Proof.
  assert (Hnull : object [("algorithm"%string, JString (str "SHA-384"))]
                  <> JNull) by discriminate.
  assert (Hn : 64%Z <> 0%Z) by discriminate.
  assert (Hsmall : (Z.abs 64 < 2 ^ 1021)%Z) by (vm_compute; reflexivity).
  destruct (proj1 (@generated_key_signs_without_import Toy.StringToNumber N
                     Toy.subtle toy_conforming
                     (object [("algorithm"%string, JString (str "SHA-384"))])
                     (JString (str "m")) (JString (str "SHA-1")) [x6d] SHA384
                     64%Z {| w_state := 0; w_calls := [] |}
                     Hnull eq_refl eq_refl Hn Hsmall (or_introl eq_refl)
                     eq_refl)
              {| ck_hash := SHA384; ck_length := 512; ck_extractable := true;
                 ck_usages := ["sign"%string];
                 ck_material := repeat x00 64 |} eq_refl)
    as (s' & sg & E & _ & Eh & El).
  eexists. exists s', sg. split; [exact E|]. split; [exact Eh|exact El].
Defined.

(** X11 on the lone surrogates U+D800 and U+DFFF with the small
    provider. *)
Lemma compare_lone_surrogates_equal_witness :
  fst (run Toy.subtle
         (webTimingSafeEqual Toy.StringToNumber (JString [0xD800])
            (JString [0xDFFF]) JUndefined)
         {| w_state := 0; w_calls := [] |})
  = Ok true.
Proof.
  exact (@compare_lone_surrogates_equal Toy.StringToNumber N Toy.subtle
           toy_conforming JUndefined 0xD800 0xDFFF
           {| w_state := 0; w_calls := [] |}
           valid_options_undefined (or_introl eq_refl) eq_refl eq_refl).
Defined.

(* ------------------------------------------------------------------ *)
(** ** Further properties: a supplied key *)






Section SuppliedKey.

Variable StringToNumber : JsString -> JsNumber.
Variable S : Type.
Variable subtleCrypto : SubtleCrypto S.






End SuppliedKey.


